(** * Shopify–Mirakl synchronisation: a shallow embedding of the sync engine

    The repository holds two programs with the same architecture:
    - [index.js], the full integration (offers, inventory, orders, tracking);
    - a simplified integration (orders and inventory only), whose
      [syncInventory] emits complete offer rows.

    Both are embedded below.  JavaScript strings are sequences of UTF-16 code
    units, remote calls are answered by an explicit record of responses, and
    the [SyncManager] methods are computations in a state-and-exception monad
    over the checkpoint held in memory, the checkpoint file, the console
    and the log of remote calls. *)

From Stdlib Require Import ZArith NArith Ascii String.
From stdpp Require Import base option list gmap strings pretty.

Local Open Scope N_scope.

(** ** JavaScript strings *)

Module Js.

(** A string is its sequence of UTF-16 code units. *)
Definition jsstring := list N.

(** An ASCII string constant of the source. *)
Definition lit (s : string) : jsstring := N_of_ascii <$> list_ascii_of_string s.
Arguments lit : simpl never.

Definition QUOTE : N := 34.
Definition LT : N := 60.
Definition GT : N := 62.
Definition COMMA : N := 44.
Definition SEMICOLON : N := 59.
Definition NEWLINE : N := 10.

(** [String(n)] for an integer value. *)
Definition str_of_N (n : N) : jsstring := lit (pretty n).
Definition str_of_Z (z : Z) : jsstring := lit (pretty z).
Definition str_of_nat (n : nat) : jsstring := lit (pretty n).
Arguments str_of_N : simpl never.
Arguments str_of_Z : simpl never.
Arguments str_of_nat : simpl never.

(** Truthiness of an optional string: [undefined], [null] and [''] are falsy. *)
Definition truthy_str (o : option jsstring) : bool :=
  match o with
  | Some (_ :: _) => true
  | _ => false
  end.

(** Truthiness of an optional integer: [undefined], [null] and [0] are falsy. *)
Definition truthy_int (o : option Z) : bool :=
  match o with
  | Some z => negb (z =? 0)%Z
  | None => false
  end.

(** [a || b] where [b] is a string. *)
Definition or_str (a : option jsstring) (b : jsstring) : jsstring :=
  match a with
  | Some (c :: s) => c :: s
  | _ => b
  end.

(** [a || b] where both sides may be absent. *)
Definition or_opt (a b : option jsstring) : option jsstring :=
  if truthy_str a then a else b.

(** [a || n] where [n] is a number. *)
Definition or_int (a : option Z) (n : Z) : Z :=
  match a with
  | Some z => if (z =? 0)%Z then n else z
  | None => n
  end.

(** The element conversion of [Array.prototype.join]: [undefined] and [null]
    become the empty string. *)
Definition join_elem (o : option jsstring) : jsstring := default [] o.

(** [parts.join(sep)]. *)
Fixpoint join (sep : jsstring) (parts : list jsstring) : jsstring :=
  match parts with
  | [] => []
  | [p] => p
  | p :: rest => p ++ sep ++ join sep rest
  end.

(** The class [\s] of a regular expression without the [u] flag. *)
Definition is_space (c : N) : bool :=
  (9 <=? c) && (c <=? 13)
  || (c =? 32) || (c =? 160) || (c =? 5760)
  || (8192 <=? c) && (c <=? 8202)
  || (c =? 8232) || (c =? 8233) || (c =? 8239) || (c =? 8287)
  || (c =? 12288) || (c =? 65279).

Fixpoint strip_prefix (p s : jsstring) : option jsstring :=
  match p, s with
  | [], _ => Some s
  | _ :: _, [] => None
  | a :: p', b :: s' => if a =? b then strip_prefix p' s' else None
  end.

Fixpoint take_while (keep : N → bool) (s : jsstring) : jsstring :=
  match s with
  | [] => []
  | c :: s' => if keep c then c :: take_while keep s' else []
  end.

(** [s.includes(sub)]. *)
Fixpoint includes (sub s : jsstring) : bool :=
  match strip_prefix sub s with
  | Some _ => true
  | None => match s with [] => false | _ :: s' => includes sub s' end
  end.

(** A match of [/LITERAL([^EXCLUDED]+)/] anchored at the start of [s]:
    the literal, then the longest non-empty run of characters outside the
    excluded class.  The result is the captured group. *)
Definition match_here (literal : jsstring) (excluded : N → bool) (s : jsstring)
  : option jsstring :=
  match strip_prefix literal s with
  | Some rest =>
      match take_while (λ c, negb (excluded c)) rest with
      | [] => None
      | cap => Some cap
      end
  | None => None
  end.

(** [s.match(/LITERAL([^EXCLUDED]+)/)]: the leftmost match; [None] is [null],
    [Some cap] is a match whose group 1 is [cap]. *)
Fixpoint match_capture (literal : jsstring) (excluded : N → bool) (s : jsstring)
  : option jsstring :=
  match match_here literal excluded s with
  | Some cap => Some cap
  | None => match s with [] => None | _ :: s' => match_capture literal excluded s' end
  end.

(** [s.replace(/<[^>]*>/g, '')]: scanning from the left, a [<] that has a
    later [>] starts a match that ends at the first such [>]; the match is
    dropped and the scan resumes after it.  Any other character is kept. *)
Fixpoint strip_tags (s : jsstring) : jsstring :=
  match s with
  | [] => []
  | c :: s' =>
      if c =? LT then
        match (fix scan (t : jsstring) : option jsstring :=
                 match t with
                 | [] => None
                 | d :: t' => if d =? GT then Some (strip_tags t') else scan t'
                 end) s'
        with
        | Some r => r
        | None => c :: strip_tags s'
        end
      else c :: strip_tags s'
  end.

(** The replacement of every double-quote character by two of them
    (the second [replace] of [cleanDescription]). *)
Fixpoint double_quotes (s : jsstring) : jsstring :=
  match s with
  | [] => []
  | c :: s' => if c =? QUOTE then QUOTE :: QUOTE :: double_quotes s'
               else c :: double_quotes s'
  end.

(** [s.substring(0, n)]. *)
Definition substring0 (n : nat) (s : jsstring) : jsstring := take n s.

(** The text after the first [>] of [s], if there is one. *)
Fixpoint after_gt (s : jsstring) : option jsstring :=
  match s with
  | [] => None
  | d :: t => if d =? GT then Some t else after_gt t
  end.

(** [s] contains a match of [/<[^>]*>/]: a [<] with a [>] somewhere after it. *)
Fixpoint has_tag (s : jsstring) : bool :=
  match s with
  | [] => false
  | c :: s' => (c =? LT) && bool_decide (is_Some (after_gt s')) || has_tag s'
  end.

End Js.
Export Js.

(** ** Data model

    One record per JSON shape the programs read or write.  A field that the
    code guards with [||] or [?.] is optional: [None] is [undefined] or
    [null]. Identifiers issued by the storefront are non-negative integers;
    marketplace order identifiers are strings. *)

Module Variant.
Record t := {
    id : N;
    sku : option jsstring;
    barcode : option jsstring;
    price : option jsstring;
    inventory_quantity : option Z;
    inventory_item_id : N
  }.
End Variant.

Module Product.
Record t := {
    title : option jsstring;
    body_html : option jsstring;
    variants : list Variant.t
  }.
End Product.

Module InventoryLevel.
Record t := {
    inventory_item_id : N;
    available : option Z
  }.
End InventoryLevel.

Module Offer.
Record t := {
    product_title : option jsstring;
    sku : option jsstring
  }.
End Offer.

Module OrderLine.
  (** [price] is the numeric literal of the marketplace's JSON, carried
      through unchanged. *)
Record t := {
    offer : option Offer.t;
    price : jsstring;
    quantity : Z
  }.
End OrderLine.

Module Address.
Record t := {
    firstname : option jsstring;
    lastname : option jsstring;
    street_1 : option jsstring;
    street_2 : option jsstring;
    city : option jsstring;
    state : option jsstring;
    country_iso_code : option jsstring;
    zip_code : option jsstring;
    phone : option jsstring
  }.
End Address.

Module ShopifyAddress.
Record t := {
    first_name : option jsstring;
    last_name : option jsstring;
    address1 : option jsstring;
    address2 : option jsstring;
    city : option jsstring;
    province : option jsstring;
    country : option jsstring;
    zip : option jsstring;
    phone : option jsstring
  }.
End ShopifyAddress.

Module Customer.
Record t := { email : option jsstring }.
End Customer.

Module MiraklOrder.
Record t := {
    order_id : jsstring;
    customer : option Customer.t;
    order_lines : list OrderLine.t;
    shipping_address : option Address.t;
    billing_address : option Address.t
  }.
End MiraklOrder.

Module LineItem.
Record t := {
    title : jsstring;
    price : jsstring;
    quantity : Z;
    sku : option jsstring
  }.
End LineItem.

(** The object [shopifyOrderData] posted to the storefront. *)
Module Draft.
Record t := {
    email : jsstring;
    line_items : list LineItem.t;
    shipping_address : option ShopifyAddress.t;
    billing_address : option ShopifyAddress.t;
    financial_status : jsstring;
    tags : jsstring;
    note : jsstring
  }.
End Draft.

(** A storefront order as the storefront returns it. *)
Module ShopifyOrder.
Record t := {
    id : N;
    order_number : N;
    tags : option jsstring;
    note : option jsstring;
    fulfillment_status : option jsstring
  }.
End ShopifyOrder.

Module Fulfillment.
Record t := {
    tracking_number : option jsstring;
    tracking_company : option jsstring;
    tracking_url : option jsstring
  }.
End Fulfillment.

Module TrackingInfo.
Record t := {
    carrier_code : jsstring;
    tracking_number : jsstring;
    tracking_url : option jsstring
  }.
End TrackingInfo.

Module ImportResult.
Record t := { import_id : N }.
End ImportResult.

(** The checkpoint [syncState].  The simplified program's checkpoint has no
    [lastProductSync] and no [lastTrackingSync]: there they stay [None]. *)
Record SyncState := {
  lastProductSync : option jsstring;
  lastInventorySync : option jsstring;
  lastOrderSync : option jsstring;
  lastTrackingSync : option jsstring;
  processedOrders : list jsstring
}.

(** What a sync routine returns. *)
Inductive SyncResult :=
| OkCount (count : nat)                 (* { success: true, count } *)
| OkCreated (createdCount : nat)        (* { success: true, createdCount } *)
| OkUpdated (updatedCount : nat)        (* { success: true, updatedCount } *)
| Imported (result : ImportResult.t)    (* the marketplace's answer, as is *)
| Failed (error : jsstring).            (* { success: false, error } *)

(** ** Effects *)

(** The outcome of an operation that may throw; an exception is known by its
    [message]. *)
Inductive Exc (A : Type) :=
| Ret (a : A)
| Throw (message : jsstring).
Arguments Ret {A} a.
Arguments Throw {A} message.

(** A console line: the constant wording of the message, and the values
    interpolated into it, in order. *)
Inductive LogEntry :=
| ConsoleLog (text : string) (args : list jsstring)
| ConsoleError (text : string) (args : list jsstring).

(** The remote operations, as they reach the two platforms. *)
Inductive Call :=
| GetProducts
| GetInventoryLevels (inventoryItemIds : list N)
| CreateOrder (orderData : Draft.t)
| GetFulfillments (orderId : N)
| GetOrdersSince
| ImportProducts (csvContent : jsstring)
| UpdateOffers (offersData : jsstring)
| GetOrders (start_date : option jsstring)
| UpdateTracking (orderId : jsstring) (trackingInfo : TrackingInfo.t).

(** The file [sync-state.json]: its content when it exists, and whether the
    process may read and write it. *)
Record FileSystem := {
  file : option jsstring;
  readable : bool;
  writable : bool
}.

(** Everything a [SyncManager] method can change. *)
Record Sys := {
  syncState : SyncState;
  fs : FileSystem;
  console : list LogEntry;
  calls : list Call
}.

Definition M (A : Type) : Type := Sys → Sys * Exc A.

#[global] Instance M_ret : MRet M := λ A a s, (s, Ret a).

#[global] Instance M_bind : MBind M := λ A B f m s,
  match m s with
  | (s', Ret a) => f a s'
  | (s', Throw e) => (s', Throw e)
  end.

Definition throw {A} (message : jsstring) : M A := λ s, (s, Throw message).

(** [try { body } catch (error) { handler(error.message) }]. *)
Definition try_catch {A} (body : M A) (handler : jsstring → M A) : M A := λ s,
  match body s with
  | (s', Ret a) => (s', Ret a)
  | (s', Throw e) => handler e s'
  end.

Definition lift {A} (e : Exc A) : M A := λ s, (s, e).

(** State changes: the checkpoint in memory replaced, a line printed, a
    request sent. *)
Definition withSyncState (st : SyncState) (s : Sys) : Sys :=
  {| syncState := st; fs := fs s; console := console s; calls := calls s |}.

Definition printed (e : LogEntry) (s : Sys) : Sys :=
  {| syncState := syncState s; fs := fs s; console := console s ++ [e];
     calls := calls s |}.

Definition called (c : Call) (s : Sys) : Sys :=
  {| syncState := syncState s; fs := fs s; console := console s;
     calls := calls s ++ [c] |}.

Definition get_syncState : M SyncState := λ s, (s, Ret (syncState s)).

Definition set_syncState (st : SyncState) : M unit := λ s, (withSyncState st s, Ret tt).

Definition console_log (text : string) (args : list jsstring) : M unit := λ s,
  (printed (ConsoleLog text args) s, Ret tt).

Definition console_error (text : string) (args : list jsstring) : M unit := λ s,
  (printed (ConsoleError text args) s, Ret tt).

(** A request leaves the process: it is appended to [calls], and the remote
    side's [answer] comes back. *)
Definition request {A} (c : Call) (answer : Exc A) : M A := λ s, (called c s, answer).

(** [fs.existsSync('sync-state.json')]. *)
Definition existsSync : M bool := λ s,
  (s, Ret (bool_decide (is_Some (file (fs s))))).

(** [fs.readFileSync('sync-state.json', 'utf8')]. *)
Definition readFileSync : M jsstring := λ s,
  match file (fs s) with
  | Some content =>
      if readable (fs s) then (s, Ret content)
      else (s, Throw (lit "EACCES: permission denied, open 'sync-state.json'"))
  | None => (s, Throw (lit "ENOENT: no such file or directory, open 'sync-state.json'"))
  end.

(** [fs.writeFileSync('sync-state.json', data)]. *)
Definition writeFileSync (data : jsstring) : M unit := λ s,
  if writable (fs s) then
    ({| syncState := syncState s;
        fs := {| file := Some data; readable := readable (fs s);
                 writable := writable (fs s) |};
        console := console s; calls := calls s |}, Ret tt)
  else (s, Throw (lit "EACCES: permission denied, open 'sync-state.json'")).

(** The JSON codec of the checkpoint: [JSON.parse] may throw,
    [JSON.stringify] does not. *)
Class JsonCodec := {
  JSON_parse : jsstring → Exc SyncState;
  JSON_stringify : SyncState → jsstring
}.

(** The answers of the storefront, one per endpoint the client uses. *)
Record ShopifyApi := {
  products_get : Exc (list Product.t);
  inventory_levels_get : list N → Exc (list InventoryLevel.t);
  orders_post : Draft.t → Exc ShopifyOrder.t;
  fulfillments_get : N → Exc (list Fulfillment.t);
  orders_get : Exc (list ShopifyOrder.t)
}.

(** The answers of the marketplace; [mirakl_orders_get] is the order list
    after the client's [|| []]. *)
Record MiraklApi := {
  offers_imports_shop_post : jsstring → Exc ImportResult.t;
  offers_imports_post : jsstring → Exc ImportResult.t;
  mirakl_orders_get : option jsstring → Exc (list MiraklOrder.t);
  tracking_put : jsstring → TrackingInfo.t → Exc unit
}.

(** ** The platform clients

    Every client method performs one request; on failure it reports the
    error on the console and throws it again. *)

Definition rethrowing {A} (text : string) (body : M A) : M A :=
  try_catch body (λ e, console_error text [e];; throw e).

Module ShopifyClient.

Definition getProducts (api : ShopifyApi) : M (list Product.t) :=
  rethrowing "Error fetching Shopify products:"
    (request GetProducts (products_get api)).

Definition getInventoryLevels (api : ShopifyApi) (inventoryItemIds : list N)
  : M (list InventoryLevel.t) :=
  rethrowing "Error fetching inventory levels:"
    (request (GetInventoryLevels inventoryItemIds)
       (inventory_levels_get api inventoryItemIds)).

Definition createOrder (api : ShopifyApi) (orderData : Draft.t) : M ShopifyOrder.t :=
  rethrowing "Error creating Shopify order:"
    (request (CreateOrder orderData) (orders_post api orderData)).

Definition getFulfillments (api : ShopifyApi) (orderId : N) : M (list Fulfillment.t) :=
  rethrowing "Error fetching fulfillments:"
    (request (GetFulfillments orderId) (fulfillments_get api orderId)).

Definition getOrdersSince (api : ShopifyApi) : M (list ShopifyOrder.t) :=
  rethrowing "Error fetching orders:"
    (request GetOrdersSince (orders_get api)).

End ShopifyClient.

Module MiraklClient.

Definition importProducts (api : MiraklApi) (csvContent : jsstring) : M ImportResult.t :=
  rethrowing "Error importing offers to Mirakl:"
    (request (ImportProducts csvContent) (offers_imports_shop_post api csvContent)).

Definition updateOffers (api : MiraklApi) (offersData : jsstring) : M ImportResult.t :=
  rethrowing "Error updating Mirakl offers:"
    (request (UpdateOffers offersData) (offers_imports_post api offersData)).

(** [start_date] is sent only when [lastRequestDate] is truthy. *)
Definition getOrders (api : MiraklApi) (lastRequestDate : option jsstring)
  : M (list MiraklOrder.t) :=
  let start_date := if truthy_str lastRequestDate then lastRequestDate else None in
  rethrowing "Error fetching Mirakl orders:"
    (request (GetOrders start_date) (mirakl_orders_get api start_date)).

Definition updateTracking (api : MiraklApi) (orderId : jsstring)
  (trackingInfo : TrackingInfo.t) : M unit :=
  rethrowing "Error updating tracking in Mirakl:"
    (request (UpdateTracking orderId trackingInfo) (tracking_put api orderId trackingInfo)).

End MiraklClient.

(** ** The sync manager: what the two programs share

    [saveSyncState], [syncOrders] and [convertAddress] have the same text in
    both programs. *)

Record SyncManager := {
  shopify : ShopifyApi;
  mirakl : MiraklApi
}.

Definition set_lastProductSync (now : jsstring) : M unit :=
  st ← get_syncState;
  set_syncState {| lastProductSync := Some now;
                   lastInventorySync := lastInventorySync st;
                   lastOrderSync := lastOrderSync st;
                   lastTrackingSync := lastTrackingSync st;
                   processedOrders := processedOrders st |}.

Definition set_lastInventorySync (now : jsstring) : M unit :=
  st ← get_syncState;
  set_syncState {| lastProductSync := lastProductSync st;
                   lastInventorySync := Some now;
                   lastOrderSync := lastOrderSync st;
                   lastTrackingSync := lastTrackingSync st;
                   processedOrders := processedOrders st |}.

Definition set_lastOrderSync (now : jsstring) : M unit :=
  st ← get_syncState;
  set_syncState {| lastProductSync := lastProductSync st;
                   lastInventorySync := lastInventorySync st;
                   lastOrderSync := Some now;
                   lastTrackingSync := lastTrackingSync st;
                   processedOrders := processedOrders st |}.

Definition set_lastTrackingSync (now : jsstring) : M unit :=
  st ← get_syncState;
  set_syncState {| lastProductSync := lastProductSync st;
                   lastInventorySync := lastInventorySync st;
                   lastOrderSync := lastOrderSync st;
                   lastTrackingSync := Some now;
                   processedOrders := processedOrders st |}.

(** The checkpoint after [processedOrders.push(order_id)]. *)
Definition pushed (order_id : jsstring) (st : SyncState) : SyncState :=
  {| lastProductSync := lastProductSync st;
     lastInventorySync := lastInventorySync st;
     lastOrderSync := lastOrderSync st;
     lastTrackingSync := lastTrackingSync st;
     processedOrders := processedOrders st ++ [order_id] |}.

(** [this.syncState.processedOrders.push(order_id)]. *)
Definition processedOrders_push (order_id : jsstring) : M unit :=
  st ← get_syncState;
  set_syncState (pushed order_id st).

Definition convertAddress (address : option Address.t) : option ShopifyAddress.t :=
  match address with
  | None => None
  | Some a =>
      Some {| ShopifyAddress.first_name := Address.firstname a;
              ShopifyAddress.last_name := Address.lastname a;
              ShopifyAddress.address1 := Address.street_1 a;
              ShopifyAddress.address2 := Address.street_2 a;
              ShopifyAddress.city := Address.city a;
              ShopifyAddress.province := Address.state a;
              ShopifyAddress.country := Address.country_iso_code a;
              ShopifyAddress.zip := Address.zip_code a;
              ShopifyAddress.phone := Address.phone a |}
  end.

Definition NOEMAIL : jsstring := lit "noemail@mirakl.order".
Definition NOTE_PREFIX : jsstring := lit "Mirakl Order ID: ".
Definition TAGS_PREFIX : jsstring := lit "Mirakl,Order-".

(** The line item made from one order line. *)
Definition lineItem (line : OrderLine.t) : LineItem.t :=
  {| LineItem.title :=
       or_str (OrderLine.offer line ≫= Offer.product_title) (lit "Product");
     LineItem.price := OrderLine.price line;
     LineItem.quantity := OrderLine.quantity line;
     LineItem.sku := OrderLine.offer line ≫= Offer.sku |}.

(** The object [shopifyOrderData] built in the loop of [syncOrders]. *)
Definition shopifyOrderData (miraklOrder : MiraklOrder.t) : Draft.t :=
  {| Draft.email :=
       or_str (MiraklOrder.customer miraklOrder ≫= Customer.email) NOEMAIL;
     Draft.line_items := lineItem <$> MiraklOrder.order_lines miraklOrder;
     Draft.shipping_address := convertAddress (MiraklOrder.shipping_address miraklOrder);
     Draft.billing_address := convertAddress (MiraklOrder.billing_address miraklOrder);
     Draft.financial_status := lit "paid";
     Draft.tags := TAGS_PREFIX ++ MiraklOrder.order_id miraklOrder;
     Draft.note := NOTE_PREFIX ++ MiraklOrder.order_id miraklOrder |}.

Section SyncManagerShared.
Context `{!JsonCodec} (this : SyncManager).

Definition saveSyncState : M unit :=
  try_catch
    (st ← get_syncState;
     writeFileSync (JSON_stringify st))
    (λ e, console_error "Error saving sync state:" [e]).

(** The [for ... of] loop of [syncOrders]; [createdCount] is the counter. *)
Fixpoint syncOrders_loop (orders : list MiraklOrder.t) (createdCount : nat) : M nat :=
  match orders with
  | [] => mret createdCount
  | miraklOrder :: rest =>
      st ← get_syncState;
      if bool_decide (MiraklOrder.order_id miraklOrder ∈ processedOrders st) then
        console_log "Skipping already processed order:" [MiraklOrder.order_id miraklOrder];;
        syncOrders_loop rest createdCount
      else
        shopifyOrder ← ShopifyClient.createOrder (shopify this) (shopifyOrderData miraklOrder);
        console_log "Created Shopify order from Mirakl order"
          [str_of_N (ShopifyOrder.order_number shopifyOrder);
           MiraklOrder.order_id miraklOrder];;
        processedOrders_push (MiraklOrder.order_id miraklOrder);;
        syncOrders_loop rest (S createdCount)
  end.

(** [now] is the instant [new Date().toISOString()] reads. *)
Definition syncOrders (now : jsstring) : M SyncResult :=
  console_log "Starting order sync (Mirakl -> Shopify)..." [];;
  try_catch
    (st ← get_syncState;
     orders ← MiraklClient.getOrders (mirakl this) (lastOrderSync st);
     console_log "Found orders from Mirakl" [str_of_nat (length orders)];;
     if bool_decide (length orders = 0%nat) then
       console_log "No new orders to sync" [];;
       mret (OkCreated 0)
     else
       createdCount ← syncOrders_loop orders 0;
       set_lastOrderSync now;;
       saveSyncState;;
       console_log "Order sync complete. Created new orders." [str_of_nat createdCount];;
       mret (OkCreated createdCount))
    (λ e, console_error "Order sync failed:" [e];;
          mret (Failed e)).

End SyncManagerShared.

(** ** The full program ([index.js]) *)

Module Full.

Definition zeroState : SyncState :=
  {| lastProductSync := None;
     lastInventorySync := None;
     lastOrderSync := None;
     lastTrackingSync := None;
     processedOrders := [] |}.

Definition DESCRIPTION_CAP : nat := 500.

Definition cleanDescription (html : option jsstring) : jsstring :=
  match html with
  | Some (c :: s) => substring0 DESCRIPTION_CAP (double_quotes (strip_tags (c :: s)))
  | _ => []
  end.

Definition PRODUCTS_HEADER : jsstring :=
  lit "sku;product-id;product-id-type;price;quantity;state;description".

Definition INVENTORY_HEADER : jsstring := lit "sku;quantity".

(** The local [sku] of the loop of [syncProducts]. *)
Definition offerSku (variant : Variant.t) : jsstring :=
  or_str (Variant.sku variant) (lit "SHOPIFY-" ++ str_of_N (Variant.id variant)).

(** The row [syncProducts] pushes for one variant of one product. *)
Definition offerLine (product : Product.t) (variant : Variant.t) : jsstring :=
  let sku := offerSku variant in
  join [SEMICOLON]
    [ sku;
      sku;
      lit "SHOP_SKU";
      join_elem (Variant.price variant);
      str_of_Z (or_int (Variant.inventory_quantity variant) 0);
      lit "11";
      [QUOTE] ++ cleanDescription (Product.body_html product) ++ [QUOTE] ].

Definition productCsvLines (products : list Product.t) : list jsstring :=
  PRODUCTS_HEADER ::
  (product ← products; variant ← Product.variants product; [offerLine product variant]).

(** The object [inventoryMap] once [forEach] has run over the levels. *)
Definition inventoryMap (inventoryLevels : list InventoryLevel.t) : gmap N Z :=
  foldl (λ m level,
           <[InventoryLevel.inventory_item_id level :=
               or_int (InventoryLevel.available level) 0]> m)
        ∅ inventoryLevels.

(** The local [quantity] of the loop of [syncInventory]. *)
Definition inventoryQuantity (inventoryMap : gmap N Z) (variant : Variant.t) : Z :=
  or_int (inventoryMap !! Variant.inventory_item_id variant) 0.

(** The row [syncInventory] pushes for one variant. *)
Definition inventoryLine (inventoryMap : gmap N Z) (variant : Variant.t) : jsstring :=
  or_str (Variant.sku variant) (str_of_N (Variant.id variant))
  ++ [SEMICOLON] ++ str_of_Z (inventoryQuantity inventoryMap variant).

Definition inventoryCsvLines (inventoryMap : gmap N Z) (products : list Product.t)
  : list jsstring :=
  INVENTORY_HEADER ::
  (product ← products; variant ← Product.variants product;
   [inventoryLine inventoryMap variant]).

Definition extractMiraklOrderId (shopifyOrder : ShopifyOrder.t) : option jsstring :=
  let from_tags :=
    match ShopifyOrder.tags shopifyOrder with
    | Some (c :: s) =>
        match_capture (lit "Order-") (λ c, is_space c || (c =? COMMA)) (c :: s)
    | _ => None
    end in
  match ShopifyOrder.note shopifyOrder with
  | Some (c :: s) =>
      match match_capture (lit "Mirakl Order ID: ") is_space (c :: s) with
      | Some id => Some id
      | None => from_tags
      end
  | _ => from_tags
  end.

(** The filter of [syncTracking]: tagged as coming from the marketplace and
    fulfilled. *)
Definition isFulfilledMiraklOrder (o : ShopifyOrder.t) : bool :=
  truthy_str (ShopifyOrder.tags o)
  && includes (lit "Mirakl") (default [] (ShopifyOrder.tags o))
  && bool_decide (ShopifyOrder.fulfillment_status o = Some (lit "fulfilled")).

Section Methods.
Context `{!JsonCodec} (this : SyncManager).

(** The [try] block returns the parsed checkpoint when the file exists;
    otherwise, and after the [catch], control reaches the final [return]. *)
Definition loadSyncState : M SyncState :=
  loaded ← try_catch
    (present ← existsSync;
     if (present : bool) then
       content ← readFileSync;
       st ← lift (JSON_parse content);
       mret (Some st)
     else mret None)
    (λ e, console_error "Error loading sync state:" [e];;
          mret None);
  match loaded with
  | Some st => mret st
  | None => mret zeroState
  end.

(** The constructor's [this.syncState = this.loadSyncState()]. *)
Definition constructor : M unit :=
  st ← loadSyncState;
  set_syncState st.

Definition syncProducts (now : jsstring) : M SyncResult :=
  console_log "Starting offer sync (Shopify -> Mirakl)..." [];;
  try_catch
    (products ← ShopifyClient.getProducts (shopify this);
     console_log "Found products in Shopify" [str_of_nat (length products)];;
     if bool_decide (length products = 0%nat) then
       console_log "No products to sync" [];;
       mret (OkCount 0)
     else
       let csvLines := productCsvLines products in
       let csvContent := join [NEWLINE] csvLines in
       result ← MiraklClient.importProducts (mirakl this) csvContent;
       console_log "Offers imported to Mirakl successfully!" [];;
       console_log "Import ID:" [str_of_N (ImportResult.import_id result)];;
       set_lastProductSync now;;
       saveSyncState;;
       mret (Imported result))
    (λ e, console_error "Offer sync failed:" [e];;
          mret (Failed e)).

Definition syncInventory (now : jsstring) : M SyncResult :=
  console_log "Starting inventory sync (Shopify -> Mirakl)..." [];;
  try_catch
    (products ← ShopifyClient.getProducts (shopify this);
     let inventoryItemIds :=
       product ← products; Variant.inventory_item_id <$> Product.variants product in
     if bool_decide (length inventoryItemIds = 0%nat) then
       console_log "No inventory items to sync" [];;
       mret (OkCount 0)
     else
       inventoryLevels ← ShopifyClient.getInventoryLevels (shopify this) inventoryItemIds;
       console_log "Found inventory levels" [str_of_nat (length inventoryLevels)];;
       let csvLines := inventoryCsvLines (inventoryMap inventoryLevels) products in
       let csvContent := join [NEWLINE] csvLines in
       result ← MiraklClient.updateOffers (mirakl this) csvContent;
       console_log "Inventory synced to Mirakl successfully!" [];;
       console_log "Import ID:" [str_of_N (ImportResult.import_id result)];;
       set_lastInventorySync now;;
       saveSyncState;;
       mret (Imported result))
    (λ e, console_error "Inventory sync failed:" [e];;
          mret (Failed e)).

(** The inner loop of [syncTracking], over the fulfillments of one order. *)
Fixpoint syncTracking_fulfillments (miraklOrderId : jsstring)
  (fulfillments : list Fulfillment.t) (updatedCount : nat) : M nat :=
  match fulfillments with
  | [] => mret updatedCount
  | fulfillment :: rest =>
      match Fulfillment.tracking_number fulfillment with
      | Some (c :: s) =>
          MiraklClient.updateTracking (mirakl this) miraklOrderId
            {| TrackingInfo.carrier_code :=
                 or_str (Fulfillment.tracking_company fulfillment) (lit "OTHER");
               TrackingInfo.tracking_number := c :: s;
               TrackingInfo.tracking_url := Fulfillment.tracking_url fulfillment |};;
          console_log "Updated tracking for Mirakl order" [miraklOrderId];;
          console_log "Tracking:" [c :: s];;
          syncTracking_fulfillments miraklOrderId rest (S updatedCount)
      | _ => syncTracking_fulfillments miraklOrderId rest updatedCount
      end
  end.

(** The outer loop of [syncTracking], over the fulfilled marketplace orders. *)
Fixpoint syncTracking_loop (miraklOrders : list ShopifyOrder.t) (updatedCount : nat)
  : M nat :=
  match miraklOrders with
  | [] => mret updatedCount
  | order :: rest =>
      match extractMiraklOrderId order with
      | Some (c :: s) =>
          fulfillments ← ShopifyClient.getFulfillments (shopify this) (ShopifyOrder.id order);
          updatedCount' ← syncTracking_fulfillments (c :: s) fulfillments updatedCount;
          syncTracking_loop rest updatedCount'
      | _ =>
          console_log "Could not extract Mirakl order ID from Shopify order"
            [str_of_N (ShopifyOrder.order_number order)];;
          syncTracking_loop rest updatedCount
      end
  end.

Definition syncTracking (now : jsstring) : M SyncResult :=
  console_log "Starting tracking sync (Shopify -> Mirakl)..." [];;
  try_catch
    (orders ← ShopifyClient.getOrdersSince (shopify this);
     let miraklOrders := List.filter isFulfilledMiraklOrder orders in
     console_log "Found fulfilled Mirakl orders" [str_of_nat (length miraklOrders)];;
     if bool_decide (length miraklOrders = 0%nat) then
       console_log "No fulfilled orders with tracking to sync" [];;
       mret (OkUpdated 0)
     else
       updatedCount ← syncTracking_loop miraklOrders 0;
       set_lastTrackingSync now;;
       saveSyncState;;
       console_log "Tracking sync complete. Updated orders." [str_of_nat updatedCount];;
       mret (OkUpdated updatedCount))
    (λ e, console_error "Tracking sync failed:" [e];;
          mret (Failed e)).

End Methods.
End Full.

(** ** The simplified program (orders and inventory only) *)

Module Simplified.

(** The checkpoint built when none can be loaded has only
    [lastInventorySync], [lastOrderSync] and [processedOrders]. *)
Definition zeroState : SyncState :=
  {| lastProductSync := None;
     lastInventorySync := None;
     lastOrderSync := None;
     lastTrackingSync := None;
     processedOrders := [] |}.

Definition DESCRIPTION_CAP : nat := 200.

Definition cleanDescription (html : option jsstring) : jsstring :=
  match html with
  | Some (c :: s) => substring0 DESCRIPTION_CAP (double_quotes (strip_tags (c :: s)))
  | _ => lit "Product description"
  end.

Definition OFFERS_HEADER : jsstring :=
  lit "sku;product-id;product-id-type;price;quantity;state;description;leadtime-to-ship".

(** The object [inventoryMap] once [forEach] has run over the levels. *)
Definition inventoryMap (inventoryLevels : list InventoryLevel.t) : gmap N Z :=
  foldl (λ m level,
           <[InventoryLevel.inventory_item_id level :=
               Z.max 0 (or_int (InventoryLevel.available level) 0)]> m)
        ∅ inventoryLevels.

(** The locals [sku], [quantity], [price] and [description] of the loop. *)
Definition offerSku (variant : Variant.t) : jsstring :=
  or_str (or_opt (Variant.sku variant) (Variant.barcode variant))
         (lit "SHOPIFY-" ++ str_of_N (Variant.id variant)).

Definition offerQuantity (inventoryMap : gmap N Z) (variant : Variant.t) : Z :=
  Z.max 0 (or_int (inventoryMap !! Variant.inventory_item_id variant) 0).

Definition offerPrice (variant : Variant.t) : jsstring :=
  or_str (Variant.price variant) (lit "0.00").

Definition offerDescription (product : Product.t) : jsstring :=
  cleanDescription (or_opt (Product.body_html product) (Product.title product)).

(** The row [syncInventory] pushes for one variant of one product. *)
Definition offerLine (inventoryMap : gmap N Z) (product : Product.t)
  (variant : Variant.t) : jsstring :=
  let sku := offerSku variant in
  join [SEMICOLON]
    [ sku;
      sku;
      lit "SHOP_SKU";
      offerPrice variant;
      str_of_Z (offerQuantity inventoryMap variant);
      lit "11";
      [QUOTE] ++ offerDescription product ++ [QUOTE];
      lit "2" ].

Definition offerCsvLines (inventoryMap : gmap N Z) (products : list Product.t)
  : list jsstring :=
  OFFERS_HEADER ::
  (product ← products; variant ← Product.variants product;
   [offerLine inventoryMap product variant]).

Section Methods.
Context `{!JsonCodec} (this : SyncManager).

(** The [try] block returns the parsed checkpoint when the file exists;
    otherwise, and after the [catch], control reaches the final [return]. *)
Definition loadSyncState : M SyncState :=
  loaded ← try_catch
    (present ← existsSync;
     if (present : bool) then
       content ← readFileSync;
       st ← lift (JSON_parse content);
       mret (Some st)
     else mret None)
    (λ e, console_error "Error loading sync state:" [e];;
          mret None);
  match loaded with
  | Some st => mret st
  | None => mret zeroState
  end.

(** The constructor's [this.syncState = this.loadSyncState()]. *)
Definition constructor : M unit :=
  st ← loadSyncState;
  set_syncState st.

Definition syncInventory (now : jsstring) : M SyncResult :=
  console_log "Starting inventory/offers sync (Shopify -> Mirakl)..." [];;
  try_catch
    (products ← ShopifyClient.getProducts (shopify this);
     if bool_decide (length products = 0%nat) then
       console_log "No products to sync" [];;
       mret (OkCount 0)
     else
       let inventoryItemIds :=
         product ← products; Variant.inventory_item_id <$> Product.variants product in
       inventoryLevels ← ShopifyClient.getInventoryLevels (shopify this) inventoryItemIds;
       console_log "Found inventory levels" [str_of_nat (length inventoryLevels)];;
       let csvLines := offerCsvLines (inventoryMap inventoryLevels) products in
       let csvContent := join [NEWLINE] csvLines in
       result ← MiraklClient.updateOffers (mirakl this) csvContent;
       console_log "Offers synced to Mirakl successfully!" [];;
       console_log "Import ID:" [str_of_N (ImportResult.import_id result)];;
       console_log "offers processed"
         [str_of_nat (length (product ← products; Product.variants product))];;
       set_lastInventorySync now;;
       saveSyncState;;
       mret (Imported result))
    (λ e, console_error "Inventory sync failed:" [e];;
          mret (Failed e)).

End Methods.
End Simplified.

(** ** Observations used in the statements *)

(** The drafts submitted by the [createOrder] calls of a call log, in order. *)
Definition createOrderCalls (cs : list Call) : list Draft.t :=
  omap (λ c, match c with CreateOrder d => Some d | _ => None end) cs.

(** How many [createOrder] calls of a log carry the note of [order_id]. *)
Definition createdFor (order_id : jsstring) (cs : list Call) : nat :=
  length (List.filter (λ d, bool_decide (Draft.note d = NOTE_PREFIX ++ order_id))
            (createOrderCalls cs)).

(** The [start_date] that [syncOrders] sends when started in [s], and the
    answer it gets from the marketplace. *)
Definition startDate (s : Sys) : option jsstring :=
  if truthy_str (lastOrderSync (syncState s)) then lastOrderSync (syncState s)
  else None.

Definition ordersFetched (this : SyncManager) (s : Sys) : Exc (list MiraklOrder.t) :=
  mirakl_orders_get (mirakl this) (startDate s).

(** The state in which the loop of [syncOrders] starts, the batch fetched. *)
Definition ordersLoopStart (s : Sys) (orders : list MiraklOrder.t) : Sys :=
  printed (ConsoleLog "Found orders from Mirakl" [str_of_nat (length orders)])
    (called (GetOrders (startDate s))
       (printed (ConsoleLog "Starting order sync (Mirakl -> Shopify)..." []) s)).

(** A checkpoint whose [lastOrderSync] is set to [now]. *)
Definition orderStamped (now : jsstring) (st : SyncState) : SyncState :=
  {| lastProductSync := lastProductSync st;
     lastInventorySync := lastInventorySync st;
     lastOrderSync := Some now;
     lastTrackingSync := lastTrackingSync st;
     processedOrders := processedOrders st |}.

(** A checkpoint with more identifiers pushed. *)
Definition appended (ids : list jsstring) (st : SyncState) : SyncState :=
  {| lastProductSync := lastProductSync st;
     lastInventorySync := lastInventorySync st;
     lastOrderSync := lastOrderSync st;
     lastTrackingSync := lastTrackingSync st;
     processedOrders := processedOrders st ++ ids |}.

(** The storefront accepts the draft made from [o]. *)
Definition accepted (this : SyncManager) (o : MiraklOrder.t) : Prop :=
  ∃ so, orders_post (shopify this) (shopifyOrderData o) = Ret so.

(** The orders of a batch that pass the guard of the loop, given the
    identifiers processed so far. *)
Fixpoint toCreate (processed : list jsstring) (orders : list MiraklOrder.t)
  : list MiraklOrder.t :=
  match orders with
  | [] => []
  | o :: rest =>
      if bool_decide (MiraklOrder.order_id o ∈ processed) then toCreate processed rest
      else o :: toCreate (processed ++ [MiraklOrder.order_id o]) rest
  end.

(** The variants of a catalogue, product by product, each with its product. *)
Definition variantsInOrder (products : list Product.t) : list (Product.t * Variant.t) :=
  product ← products; variant ← Product.variants product; [(product, variant)].

(** The level the storefront reported last for an inventory item, and its
    available quantity: [None] when no level was reported, or the reported
    quantity is [null]. *)
Definition lastLevel (inventoryLevels : list InventoryLevel.t) (inventory_item_id : N)
  : option InventoryLevel.t :=
  head (List.filter
          (λ l, bool_decide (InventoryLevel.inventory_item_id l = inventory_item_id))
          (reverse inventoryLevels)).

Definition levelOf (inventoryLevels : list InventoryLevel.t) (inventory_item_id : N)
  : option Z :=
  lastLevel inventoryLevels inventory_item_id ≫= InventoryLevel.available.

(** What the two patterns of [extractMiraklOrderId] capture in a note and in
    a tag list; [None] when the field is absent or does not match. *)
Definition noteCapture (note : option jsstring) : option jsstring :=
  n ← note; match_capture (lit "Mirakl Order ID: ") is_space n.

Definition tagsCapture (tags : option jsstring) : option jsstring :=
  t ← tags; match_capture (lit "Order-") (λ c, is_space c || (c =? COMMA)) t.

(** No character of [s] is in the class [\s]. *)
Definition no_whitespace (s : jsstring) : Prop := Forall (λ c, is_space c = false) s.

(** The sanitization as the specification words it: the tags stripped, then
    every double quote written twice, then the first [cap] characters kept. *)
Definition sanitized (cap : nat) (s : jsstring) : jsstring :=
  take cap (c ← strip_tags s; if c =? QUOTE then [QUOTE; QUOTE] else [c]).

(** ** Sample data *)

Module Sample.

(** The description [<p>Nice QitemQ</p>], where Q is the double quote, and
    its cleaned form. *)
Definition niceItemHtml : jsstring :=
  lit "<p>Nice " ++ [QUOTE] ++ lit "item" ++ [QUOTE] ++ lit "</p>".

Definition niceItemClean : jsstring :=
  lit "Nice " ++ [QUOTE; QUOTE] ++ lit "item" ++ [QUOTE; QUOTE].

(** A codec that rejects every text, and writes the processed identifiers
    separated by commas. *)
Definition codec : JsonCodec :=
  {| JSON_parse := λ _, Throw (lit "Unexpected token in JSON at position 0");
     JSON_stringify := λ st, join [COMMA] (processedOrders st) |}.

Definition order (order_id : jsstring) (email : option jsstring) : MiraklOrder.t :=
  {| MiraklOrder.order_id := order_id;
     MiraklOrder.customer := Some {| Customer.email := email |};
     MiraklOrder.order_lines := [];
     MiraklOrder.shipping_address := None;
     MiraklOrder.billing_address := None |}.

Definition createdOrder : ShopifyOrder.t :=
  {| ShopifyOrder.id := 1; ShopifyOrder.order_number := 1001;
     ShopifyOrder.tags := None; ShopifyOrder.note := None;
     ShopifyOrder.fulfillment_status := None |}.

(** A storefront that accepts every draft but the one whose note names
    [refused]. *)
Definition shop (refused : option jsstring) : ShopifyApi :=
  {| products_get := Ret [];
     inventory_levels_get := λ _, Ret [];
     orders_post := λ d,
       match refused with
       | Some id =>
           if bool_decide (Draft.note d = NOTE_PREFIX ++ id)
           then Throw (lit "Request failed with status code 422")
           else Ret createdOrder
       | None => Ret createdOrder
       end;
     fulfillments_get := λ _, Ret [];
     orders_get := Ret [] |}.

(** A marketplace that always answers with the same batch. *)
Definition market (orders : list MiraklOrder.t) : MiraklApi :=
  {| offers_imports_shop_post := λ _, Ret {| ImportResult.import_id := 7 |};
     offers_imports_post := λ _, Ret {| ImportResult.import_id := 7 |};
     mirakl_orders_get := λ _, Ret orders;
     tracking_put := λ _ _, Ret tt |}.

Definition manager (refused : option jsstring) (orders : list MiraklOrder.t)
  : SyncManager :=
  {| shopify := shop refused; mirakl := market orders |}.

(** A batch of three orders, the first identifier repeated at the end. *)
Definition batch : list MiraklOrder.t :=
  [ order (lit "A1") (Some (lit "a@example.org"));
    order (lit "B2") None;
    order (lit "A1") (Some (lit "a@example.org")) ].

(** The storefront order that keeps the note and the tags of a draft. *)
Definition storedOrder (d : Draft.t) : ShopifyOrder.t :=
  {| ShopifyOrder.id := 1; ShopifyOrder.order_number := 1001;
     ShopifyOrder.tags := Some (Draft.tags d);
     ShopifyOrder.note := Some (Draft.note d);
     ShopifyOrder.fulfillment_status := Some (lit "fulfilled") |}.

(** One product with one variant: sku [A1], inventory item 1, price 10.00. *)
Definition variantA1 : Variant.t :=
  {| Variant.id := 11; Variant.sku := Some (lit "A1"); Variant.barcode := None;
     Variant.price := Some (lit "10.00"); Variant.inventory_quantity := Some 3%Z;
     Variant.inventory_item_id := 1 |}.

Definition item : Product.t :=
  {| Product.title := Some (lit "Item"); Product.body_html := Some niceItemHtml;
     Product.variants := [variantA1] |}.

Definition catalog : list Product.t := [item].

(** A variant without sku, with barcode [B1] and identifier 987. *)
Definition variantB1 : Variant.t :=
  {| Variant.id := 987; Variant.sku := None; Variant.barcode := Some (lit "B1");
     Variant.price := Some (lit "5.00"); Variant.inventory_quantity := None;
     Variant.inventory_item_id := 2 |}.

Definition level (inventory_item_id : N) (available : option Z) : InventoryLevel.t :=
  {| InventoryLevel.inventory_item_id := inventory_item_id;
     InventoryLevel.available := available |}.

(** A storefront that lists [catalog] with the given inventory levels. *)
Definition stockedShop (levels : list InventoryLevel.t) : ShopifyApi :=
  {| products_get := Ret catalog;
     inventory_levels_get := λ _, Ret levels;
     orders_post := λ _, Ret createdOrder;
     fulfillments_get := λ _, Ret [];
     orders_get := Ret [] |}.

Definition stockManager (levels : list InventoryLevel.t) : SyncManager :=
  {| shopify := stockedShop levels; mirakl := market [] |}.

Definition disk : FileSystem := {| file := None; readable := true; writable := true |}.

(** A fresh process: nothing processed, no checkpoint file. *)
Definition sys0 : Sys :=
  {| syncState := Full.zeroState; fs := disk; console := []; calls := [] |}.

Definition now1 : jsstring := lit "2024-01-01T00:00:00.000Z".
Definition now2 : jsstring := lit "2024-01-01T00:15:00.000Z".

End Sample.

(** ** Start-up ([config] and [main])

    The configuration read from the environment, the test [main] makes
    before anything else, and the first pass [main] runs once the manager is
    built.  The timers [main] registers in between are outside this model. *)

(** The variables of [process.env] the programs read. *)
Inductive EnvVar :=
| SHOPIFY_STORE_NAME | SHOPIFY_ACCESS_TOKEN | SHOPIFY_API_VERSION
| MIRAKL_API_URL | MIRAKL_API_KEY | MIRAKL_SHOP_ID
| SYNC_ENABLED
| SCHEDULE_PRODUCTS | SCHEDULE_INVENTORY | SCHEDULE_ORDERS | SCHEDULE_TRACKING.

Module Config.
Record shopify_t := {
  storeName : jsstring;
  accessToken : jsstring;
  apiVersion : jsstring
}.
Record mirakl_t := {
  apiUrl : jsstring;
  apiKey : jsstring;
  shopId : jsstring
}.
(** The simplified program has only the [inventory] and [orders] schedules. *)
Record schedules_t := {
  products : jsstring;
  inventory : jsstring;
  orders : jsstring;
  tracking : jsstring
}.
Record sync_t := {
  enabled : bool;
  schedules : schedules_t
}.
Record t := {
  shopify : shopify_t;
  mirakl : mirakl_t;
  sync : sync_t
}.
End Config.

(** The object [config], for an environment [env]. *)
Definition config (env : EnvVar → option jsstring) : Config.t :=
  {| Config.shopify :=
       {| Config.storeName := or_str (env SHOPIFY_STORE_NAME) (lit "YOUR_STORE_NAME");
          Config.accessToken :=
            or_str (env SHOPIFY_ACCESS_TOKEN) (lit "YOUR_SHOPIFY_ACCESS_TOKEN");
          Config.apiVersion := or_str (env SHOPIFY_API_VERSION) (lit "2024-01") |};
     Config.mirakl :=
       {| Config.apiUrl :=
            or_str (env MIRAKL_API_URL) (lit "https://YOUR_INSTANCE.mirakl.net");
          Config.apiKey := or_str (env MIRAKL_API_KEY) (lit "YOUR_MIRAKL_API_KEY");
          Config.shopId := or_str (env MIRAKL_SHOP_ID) (lit "YOUR_SHOP_ID") |};
     Config.sync :=
       {| Config.enabled := negb (bool_decide (env SYNC_ENABLED = Some (lit "false")));
          Config.schedules :=
            {| Config.products := or_str (env SCHEDULE_PRODUCTS) (lit "0 */6 * * *");
               Config.inventory := or_str (env SCHEDULE_INVENTORY) (lit "*/30 * * * *");
               Config.orders := or_str (env SCHEDULE_ORDERS) (lit "*/15 * * * *");
               Config.tracking := or_str (env SCHEDULE_TRACKING) (lit "*/20 * * * *") |} |} |}.

(** The condition under which [main] reports a configuration error and
    exits with status 1. *)
Definition configurationError (c : Config.t) : bool :=
  bool_decide (Config.storeName (Config.shopify c) = lit "YOUR_STORE_NAME")
  || bool_decide (Config.apiUrl (Config.mirakl c) = lit "https://YOUR_INSTANCE.mirakl.net")
  || includes (lit "YOUR") (Config.storeName (Config.shopify c))
  || includes (lit "YOUR") (Config.apiKey (Config.mirakl c)).

(** A rule of box-drawing characters on the console. *)
Definition console_rule : M unit := console_log "----------" [].
Definition console_error_rule : M unit := console_error "----------" [].

Section InitialSync.
Context `{!JsonCodec} (this : SyncManager).

(** The first pass of the full program's [main]; [t1] to [t4] are the
    instants the four routines read. *)
Definition Full_initialSync (t1 t2 t3 t4 : jsstring) : M unit :=
  console_rule;;
  console_log "RUNNING INITIAL SYNC" [];;
  console_rule;;
  try_catch
    (Full.syncProducts this t1;;
     Full.syncInventory this t2;;
     syncOrders this t3;;
     Full.syncTracking this t4;;
     console_rule;;
     console_log "INITIAL SYNC COMPLETE!" [];;
     console_rule;;
     console_log "Integration is now running!" [];;
     console_log "Syncs will run automatically on schedule" [];;
     console_log "Press Ctrl+C to stop" [];;
     console_rule)
    (λ e, console_error_rule;;
          console_error "INITIAL SYNC FAILED" [];;
          console_error_rule;;
          console_error "Error:" [e];;
          console_error_rule).

(** The first pass of the simplified program's [main]. *)
Definition Simplified_initialSync (t1 t2 : jsstring) : M unit :=
  console_rule;;
  console_log "RUNNING INITIAL SYNC" [];;
  console_rule;;
  try_catch
    (Simplified.syncInventory this t1;;
     syncOrders this t2;;
     console_rule;;
     console_log "INITIAL SYNC COMPLETE!" [];;
     console_rule;;
     console_log "Integration is now running!" [];;
     console_log "Syncs:" [];;
     console_log "Inventory updates every 30 minutes" [];;
     console_log "Orders imported every 15 minutes" [];;
     console_log "Press Ctrl+C to stop" [];;
     console_rule)
    (λ e, console_error_rule;;
          console_error "INITIAL SYNC FAILED" [];;
          console_error_rule;;
          console_error "Error:" [e];;
          console_error_rule).

End InitialSync.

(** The state once the heading of the first pass is printed, and the lines
    printed when the [try] block of the first pass reaches its end. *)
Definition initialSyncBanner (s : Sys) : Sys :=
  printed (ConsoleLog "----------" [])
    (printed (ConsoleLog "RUNNING INITIAL SYNC" [])
       (printed (ConsoleLog "----------" []) s)).

Definition Full_completeLines : list LogEntry :=
  [ ConsoleLog "----------" [];
    ConsoleLog "INITIAL SYNC COMPLETE!" [];
    ConsoleLog "----------" [];
    ConsoleLog "Integration is now running!" [];
    ConsoleLog "Syncs will run automatically on schedule" [];
    ConsoleLog "Press Ctrl+C to stop" [];
    ConsoleLog "----------" [] ].

Definition Simplified_completeLines : list LogEntry :=
  [ ConsoleLog "----------" [];
    ConsoleLog "INITIAL SYNC COMPLETE!" [];
    ConsoleLog "----------" [];
    ConsoleLog "Integration is now running!" [];
    ConsoleLog "Syncs:" [];
    ConsoleLog "Inventory updates every 30 minutes" [];
    ConsoleLog "Orders imported every 15 minutes" [];
    ConsoleLog "Press Ctrl+C to stop" [];
    ConsoleLog "----------" [] ].

(** ** Further observations *)

(** How many [updateTracking] requests a call log holds. *)
Definition countUpdateTracking (cs : list Call) : nat :=
  length (List.filter (λ c, match c with UpdateTracking _ _ => true | _ => false end) cs).

(** A request the tracking loops may send: the fulfillments of an order, or
    a tracking update with an identifier, a tracking number and a carrier
    code that are not empty, the identifier free of whitespace. *)
Definition trackingCallOk (c : Call) : Prop :=
  match c with
  | GetFulfillments _ => True
  | UpdateTracking orderId t =>
      orderId ≠ [] ∧ no_whitespace orderId
      ∧ TrackingInfo.tracking_number t ≠ [] ∧ TrackingInfo.carrier_code t ≠ []
  | _ => False
  end.

(** The tracking updates the inner loop of [syncTracking] builds from the
    fulfillments of one order. *)
Definition trackingUpdates (fulfillments : list Fulfillment.t) : list TrackingInfo.t :=
  omap (λ f,
          match Fulfillment.tracking_number f with
          | Some (c :: s) =>
              Some {| TrackingInfo.carrier_code :=
                        or_str (Fulfillment.tracking_company f) (lit "OTHER");
                      TrackingInfo.tracking_number := c :: s;
                      TrackingInfo.tracking_url := Fulfillment.tracking_url f |}
          | _ => None
          end) fulfillments.

(** The requests a complete pass of the outer loop of [syncTracking] sends
    for the given orders: for each order with a recoverable identifier, the
    request for its fulfillments and then one update per tracking number. *)
Definition trackingPlan (this : SyncManager) (orders : list ShopifyOrder.t) : list Call :=
  order ← orders;
  match Full.extractMiraklOrderId order with
  | Some (c :: id) =>
      GetFulfillments (ShopifyOrder.id order) ::
      match fulfillments_get (shopify this) (ShopifyOrder.id order) with
      | Ret fulfillments => UpdateTracking (c :: id) <$> trackingUpdates fulfillments
      | Throw _ => []
      end
  | _ => []
  end.

(** Two checkpoints that differ at most in the named timestamp. *)
Definition sameButProductSync (a b : SyncState) : Prop :=
  lastInventorySync a = lastInventorySync b ∧ lastOrderSync a = lastOrderSync b
  ∧ lastTrackingSync a = lastTrackingSync b ∧ processedOrders a = processedOrders b.

Definition sameButInventorySync (a b : SyncState) : Prop :=
  lastProductSync a = lastProductSync b ∧ lastOrderSync a = lastOrderSync b
  ∧ lastTrackingSync a = lastTrackingSync b ∧ processedOrders a = processedOrders b.

Definition sameButTrackingSync (a b : SyncState) : Prop :=
  lastProductSync a = lastProductSync b ∧ lastInventorySync a = lastInventorySync b
  ∧ lastOrderSync a = lastOrderSync b ∧ processedOrders a = processedOrders b.

(** The checkpoint file holds the checkpoint in memory, when it can be
    written; it is untouched when it cannot. *)
Definition flushed `{!JsonCodec} (s s' : Sys) : Prop :=
  if writable (fs s) then
    fs s' = {| file := Some (JSON_stringify (syncState s'));
               readable := readable (fs s); writable := true |}
  else fs s' = fs s.

(** More sample data. *)
Module Sample2.

(** A codec that reads back exactly the text it writes for [st0]. *)
Definition codecFor (st0 : SyncState) : JsonCodec :=
  {| JSON_parse := λ text,
       if bool_decide (text = join [COMMA] (processedOrders st0)) then Ret st0
       else Throw (lit "Unexpected token in JSON at position 0");
     JSON_stringify := λ st, join [COMMA] (processedOrders st) |}.

Definition fulfilledOrder (id : N) (note tags : option jsstring) : ShopifyOrder.t :=
  {| ShopifyOrder.id := id; ShopifyOrder.order_number := 1000 + id;
     ShopifyOrder.tags := tags; ShopifyOrder.note := note;
     ShopifyOrder.fulfillment_status := Some (lit "fulfilled") |}.

Definition shipped (tracking_number company : option jsstring) : Fulfillment.t :=
  {| Fulfillment.tracking_number := tracking_number;
     Fulfillment.tracking_company := company;
     Fulfillment.tracking_url := None |}.

(** A storefront with two fulfilled marketplace orders and one order that is
    not tagged; the first has two shipments, one without tracking number. *)
Definition trackingShop : ShopifyApi :=
  {| products_get := Ret Sample.catalog;
     inventory_levels_get := λ _, Ret [Sample.level 1 (Some 3%Z)];
     orders_post := λ _, Ret Sample.createdOrder;
     fulfillments_get := λ id,
       if id =? 1 then Ret [shipped (Some (lit "TRK1")) None; shipped None None]
       else Ret [shipped (Some (lit "TRK2")) (Some (lit "UPS"))];
     orders_get :=
       Ret [ fulfilledOrder 1 (Some (lit "Mirakl Order ID: A1")) (Some (lit "Mirakl,Order-A1"));
             fulfilledOrder 2 None (Some (lit "gift"));
             fulfilledOrder 3 None (Some (lit "Mirakl,Order-C3")) ] |}.

Definition trackingManager : SyncManager :=
  {| shopify := trackingShop; mirakl := Sample.market Sample.batch |}.

(** A storefront whose every endpoint fails. *)
Definition downShop : ShopifyApi :=
  {| products_get := Throw (lit "timeout");
     inventory_levels_get := λ _, Throw (lit "timeout");
     orders_post := λ _, Throw (lit "timeout");
     fulfillments_get := λ _, Throw (lit "timeout");
     orders_get := Throw (lit "timeout") |}.

Definition downMarket : MiraklApi :=
  {| offers_imports_shop_post := λ _, Throw (lit "timeout");
     offers_imports_post := λ _, Throw (lit "timeout");
     mirakl_orders_get := λ _, Throw (lit "timeout");
     tracking_put := λ _ _, Throw (lit "timeout") |}.

Definition downManager : SyncManager := {| shopify := downShop; mirakl := downMarket |}.

(** An environment with the three checked variables set. *)
Definition env : EnvVar → option jsstring := λ v,
  match v with
  | SHOPIFY_STORE_NAME => Some (lit "acme")
  | MIRAKL_API_URL => Some (lit "https://acme.mirakl.net")
  | MIRAKL_API_KEY => Some (lit "k-123")
  | _ => None
  end.

Definition variantNoSku : Variant.t :=
  {| Variant.id := 987; Variant.sku := None; Variant.barcode := None;
     Variant.price := None; Variant.inventory_quantity := None;
     Variant.inventory_item_id := 5 |}.

End Sample2.

(** * Properties *)

(** ** Strings *)

Section StringFacts.
Implicit Types (s t : jsstring) (c : N).

Lemma strip_tags_cons c s :
  strip_tags (c :: s) =
    if c =? LT then
      match after_gt s with
      | Some rest => strip_tags rest
      | None => c :: strip_tags s
      end
    else c :: strip_tags s.
Proof.
  cbn [strip_tags]. destruct (c =? LT); [|done].
  assert (Hscan : (fix scan (t : jsstring) : option jsstring :=
                     match t with
                     | [] => None
                     | d :: t' => if d =? GT then Some (strip_tags t') else scan t'
                     end) s = strip_tags <$> after_gt s).
  { induction s as [|d t IH]; [done|]. cbn [after_gt]. destruct (d =? GT); [done|apply IH]. }
  rewrite Hscan. by destruct (after_gt s).
Qed.

Lemma after_gt_suffix s rest :
  after_gt s = Some rest → rest `suffix_of` s ∧ (length rest < length s)%nat.
Proof.
  induction s as [|d t IH]; [done|]. cbn [after_gt length].
  destruct (d =? GT).
  - intros [= ->]. split; [by apply suffix_cons_r|lia].
  - intros H. destruct (IH H) as [Hs Hl]. split; [by apply suffix_cons_r|lia].
Qed.

Lemma after_gt_None s : after_gt s = None ↔ GT ∉ s.
Proof.
  induction s as [|d t IH]; cbn [after_gt].
  - split; [intros _; apply not_elem_of_nil|done].
  - destruct (N.eqb_spec d GT) as [->|Hne].
    + split; [done|]. intros H. exfalso. apply H. left.
    + rewrite IH, not_elem_of_cons. split; [intros ?; split; [congruence|done]|by intros [_ ?]].
Qed.

(** Stripping only removes characters. *)
Lemma strip_tags_sublist s : strip_tags s `sublist_of` s.
Proof.
  remember (length s) as n eqn:Hn.
  revert s Hn. induction n as [n IH] using lt_wf_ind. intros s Hn.
  destruct s as [|c s]; [done|]. rewrite strip_tags_cons.
  cbn [length] in Hn.
  destruct (c =? LT).
  - destruct (after_gt s) as [rest|] eqn:Hgt.
    + destruct (after_gt_suffix _ _ Hgt) as [Hsuf Hlen].
      apply sublist_cons. destruct Hsuf as [k ->].
      apply sublist_inserts_l. apply (IH (length rest)); [lia|done].
    + apply sublist_skip. apply (IH (length s)); [lia|done].
  - apply sublist_skip. apply (IH (length s)); [lia|done].
Qed.

(** What is left after stripping contains no tag. *)
Lemma strip_tags_no_tag s : has_tag (strip_tags s) = false.
Proof.
  remember (length s) as n eqn:Hn.
  revert s Hn. induction n as [n IH] using lt_wf_ind. intros s Hn.
  destruct s as [|c s]; [done|]. rewrite strip_tags_cons.
  cbn [length] in Hn.
  destruct (c =? LT) eqn:Hc.
  - destruct (after_gt s) as [rest|] eqn:Hgt.
    + destruct (after_gt_suffix _ _ Hgt) as [Hsuf Hlen].
      apply (IH (length rest)); [lia|done].
    + cbn [has_tag]. rewrite (IH (length s)); [|lia|done].
      assert (after_gt (strip_tags s) = None) as ->.
      { apply after_gt_None. apply after_gt_None in Hgt.
        intros Hin. apply Hgt. eapply elem_of_sublist; [done|apply strip_tags_sublist]. }
      rewrite bool_decide_eq_false_2; [by rewrite andb_false_r|]. by intros [? ?].
  - cbn [has_tag]. rewrite Hc. cbn. apply (IH (length s)); [lia|done].
Qed.

(** A text without tags is left as it is. *)
Lemma strip_tags_id s : has_tag s = false → strip_tags s = s.
Proof.
  induction s as [|c s IH]; [done|]. rewrite strip_tags_cons. cbn [has_tag].
  intros [H1 H2]%orb_false_elim.
  destruct (c =? LT); cbn in H1.
  - apply bool_decide_eq_false in H1.
    destruct (after_gt s) eqn:E; [exfalso; apply H1; eauto|]. by rewrite IH.
  - by rewrite IH.
Qed.

Lemma double_quotes_bind s :
  double_quotes s = (c ← s; if c =? QUOTE then [QUOTE; QUOTE] else [c]).
Proof.
  induction s as [|c s IH]; [done|]. cbn [double_quotes]. rewrite bind_cons, IH.
  by destruct (c =? QUOTE).
Qed.

End StringFacts.

(** ** Description sanitization *)

(** C7 (as amended).  For every non-empty description, [cleanDescription]
    drops every tag (what is left is a subsequence of the input without any
    tag), then doubles every double quote, then keeps the first 500
    characters in the full program and the first 200 in the simplified one.
    The sample description with a paragraph tag and a quoted word comes out
    without the tag and with the quotes doubled.  An absent or empty
    description gives the empty string in the full program and the text
    [Product description] in the simplified one. *)
Theorem cleanDescription_sanitizes (s : jsstring) :
  s ≠ [] →
  Full.cleanDescription (Some s) = sanitized 500 s
  ∧ Simplified.cleanDescription (Some s) = sanitized 200 s
  ∧ has_tag (strip_tags s) = false
  ∧ strip_tags s `sublist_of` s
  ∧ (length (Full.cleanDescription (Some s)) ≤ 500)%nat
  ∧ (length (Simplified.cleanDescription (Some s)) ≤ 200)%nat
  ∧ Full.cleanDescription (Some Sample.niceItemHtml) = Sample.niceItemClean
  ∧ Simplified.cleanDescription (Some Sample.niceItemHtml) = Sample.niceItemClean
  ∧ Full.cleanDescription None = [] ∧ Full.cleanDescription (Some []) = []
  ∧ Simplified.cleanDescription None = lit "Product description"
  ∧ Simplified.cleanDescription (Some []) = lit "Product description".
Proof.
  intros Hs. destruct s as [|c s]; [done|].
  unfold Full.cleanDescription, Simplified.cleanDescription, sanitized, substring0.
  rewrite <- double_quotes_bind.
  repeat split; try done.
  - apply strip_tags_no_tag.
  - apply strip_tags_sublist.
  - rewrite length_take. unfold Full.DESCRIPTION_CAP. lia.
  - rewrite length_take. unfold Simplified.DESCRIPTION_CAP. lia.
Qed.

Lemma cleanDescription_sanitizes_witness :
  lit "<b>bold</b>" ≠ []
  ∧ Full.cleanDescription (Some (lit "<b>bold</b>")) = sanitized 500 (lit "<b>bold</b>")
  ∧ Simplified.cleanDescription (Some (lit "<b>bold</b>")) = sanitized 200 (lit "<b>bold</b>").
Proof.
  assert (Hne : lit "<b>bold</b>" ≠ []) by (vm_compute; discriminate).
  split; [exact Hne|].
  destruct (cleanDescription_sanitizes (lit "<b>bold</b>") Hne) as (Hfull & Hsimple & _).
  split; [exact Hfull|exact Hsimple].
Defined.

(** C7 (as stated) fails on the empty string: the simplified program answers
    [Product description], not the cleaned (empty) text. *)
Lemma cleanDescription_empty_counterexample :
  Simplified.cleanDescription (Some []) ≠ sanitized 200 [].
Proof. vm_compute. discriminate. Qed.

(** ** Order sync *)

Section OrderSync.
Context `{!JsonCodec} (this : SyncManager).
Implicit Types (s : Sys) (o : MiraklOrder.t) (orders : list MiraklOrder.t).

Lemma syncOrders_loop_skip o orders n s :
  MiraklOrder.order_id o ∈ processedOrders (syncState s) →
  syncOrders_loop this (o :: orders) n s =
  syncOrders_loop this orders n
    (printed (ConsoleLog "Skipping already processed order:" [MiraklOrder.order_id o]) s).
Proof.
  intros Hin. cbn [syncOrders_loop]. unfold mbind, M_bind, get_syncState.
  rewrite bool_decide_eq_true_2 by done. reflexivity.
Qed.

Lemma syncOrders_loop_created o orders n s so :
  MiraklOrder.order_id o ∉ processedOrders (syncState s) →
  orders_post (shopify this) (shopifyOrderData o) = Ret so →
  syncOrders_loop this (o :: orders) n s =
  syncOrders_loop this orders (S n)
    (withSyncState (pushed (MiraklOrder.order_id o) (syncState s))
       (printed (ConsoleLog "Created Shopify order from Mirakl order"
                   [str_of_N (ShopifyOrder.order_number so); MiraklOrder.order_id o])
          (called (CreateOrder (shopifyOrderData o)) s))).
Proof.
  intros Hin Hpost. cbn [syncOrders_loop]. unfold mbind, M_bind, get_syncState.
  rewrite bool_decide_eq_false_2 by done.
  unfold ShopifyClient.createOrder, rethrowing, try_catch, request. rewrite Hpost.
  reflexivity.
Qed.

Lemma syncOrders_loop_thrown o orders n s e :
  MiraklOrder.order_id o ∉ processedOrders (syncState s) →
  orders_post (shopify this) (shopifyOrderData o) = Throw e →
  syncOrders_loop this (o :: orders) n s =
  (printed (ConsoleError "Error creating Shopify order:" [e])
     (called (CreateOrder (shopifyOrderData o)) s), Throw e).
Proof.
  intros Hin Hpost. cbn [syncOrders_loop]. unfold mbind, M_bind, get_syncState.
  rewrite bool_decide_eq_false_2 by done.
  unfold ShopifyClient.createOrder, rethrowing, try_catch, request. rewrite Hpost.
  reflexivity.
Qed.

Lemma appended_nil st : appended [] st = st.
Proof. destruct st. unfold appended. cbn. by rewrite app_nil_r. Qed.

Lemma appended_pushed id ids st : appended ids (pushed id st) = appended (id :: ids) st.
Proof. unfold appended, pushed. cbn. by rewrite <- app_assoc. Qed.

(** What one run of the loop does: the orders it [created] are accepted by
    the storefront and are exactly those pushed on [processedOrders]; a run
    that returns has created every order that passes the guard, a run that
    throws stopped at the first refused one. *)
Lemma syncOrders_loop_spec orders n s s' r :
  syncOrders_loop this orders n s = (s', r) →
  ∃ created,
    fs s' = fs s
    ∧ syncState s' = appended (MiraklOrder.order_id <$> created) (syncState s)
    ∧ Forall (accepted this) created
    ∧ match r with
      | Ret m =>
          created = toCreate (processedOrders (syncState s)) orders
          ∧ m = (n + length created)%nat
          ∧ calls s' = calls s ++ (CreateOrder ∘ shopifyOrderData <$> created)
      | Throw e =>
          ∃ o, (created ++ [o]) `prefix_of` toCreate (processedOrders (syncState s)) orders
               ∧ orders_post (shopify this) (shopifyOrderData o) = Throw e
               ∧ calls s' = calls s ++ (CreateOrder ∘ shopifyOrderData <$> created)
                              ++ [CreateOrder (shopifyOrderData o)]
      end.
Proof.
  revert n s. induction orders as [|o rest IH]; intros n s Hrun.
  - injection Hrun as <- <-. exists []. cbn.
    rewrite appended_nil, app_nil_r. repeat split; [constructor|lia].
  - cbn [toCreate].
    destruct (decide (MiraklOrder.order_id o ∈ processedOrders (syncState s))) as [Hin|Hin].
    + rewrite (syncOrders_loop_skip o rest n s Hin) in Hrun.
      rewrite bool_decide_eq_true_2 by done. exact (IH _ _ Hrun).
    + rewrite bool_decide_eq_false_2 by done.
      destruct (orders_post (shopify this) (shopifyOrderData o)) as [so|e] eqn:Hpost.
      * rewrite (syncOrders_loop_created o rest n s so Hin Hpost) in Hrun.
        destruct (IH _ _ Hrun) as (created & Hfs & Hst & Hacc & Hres).
        cbn [withSyncState printed called syncState calls fs] in Hfs, Hst, Hres.
        exists (o :: created). split; [exact Hfs|]. split.
        { rewrite Hst. apply appended_pushed. }
        split; [constructor; [by exists so|done]|].
        destruct r as [m|e].
        -- destruct Hres as (Hc & -> & ->). rewrite fmap_cons, <- app_assoc. cbn [length].
           repeat split; [|lia]. by rewrite Hc.
        -- destruct Hres as (o' & Hpre & Hthrow & ->). exists o'.
           split; [|split; [done|]].
           ++ cbn. by apply prefix_cons.
           ++ rewrite fmap_cons, <- !app_assoc. done.
      * rewrite (syncOrders_loop_thrown o rest n s e Hin Hpost) in Hrun.
        injection Hrun as <- <-.
        exists []. cbn [fst snd fs syncState calls printed called fmap list_fmap].
        rewrite appended_nil. repeat split; [constructor|].
        exists o. split; [|done]. cbn. apply prefix_cons, prefix_nil.
Qed.

(** Saving never throws, and touches nothing but the file. *)
Lemma saveSyncState_spec s :
  ∃ s', saveSyncState s = (s', Ret tt)
        ∧ syncState s' = syncState s ∧ calls s' = calls s
        ∧ (writable (fs s) = false → fs s' = fs s)
        ∧ (writable (fs s) = true →
           file (fs s') = Some (JSON_stringify (syncState s))).
Proof.
  unfold saveSyncState, try_catch, mbind, M_bind, get_syncState, writeFileSync.
  destruct (writable (fs s)) eqn:Hw; eexists; (split; [reflexivity|]); cbn; by repeat split.
Qed.

Ltac run_syncOrders Hf :=
  unfold ordersFetched, startDate in Hf;
  unfold syncOrders, try_catch at 1, mbind, M_bind, console_log, get_syncState,
    MiraklClient.getOrders, rethrowing, try_catch, request;
  cbn [printed syncState]; rewrite Hf.

Lemma syncOrders_fetch_thrown now s e :
  ordersFetched this s = Throw e →
  syncOrders this now s =
    (printed (ConsoleError "Order sync failed:" [e])
       (printed (ConsoleError "Error fetching Mirakl orders:" [e])
          (called (GetOrders (startDate s))
             (printed (ConsoleLog "Starting order sync (Mirakl -> Shopify)..." []) s))),
     Ret (Failed e)).
Proof. intros Hf. run_syncOrders Hf. reflexivity. Qed.

Lemma syncOrders_fetch_empty now s :
  ordersFetched this s = Ret [] →
  syncOrders this now s =
    (printed (ConsoleLog "No new orders to sync" []) (ordersLoopStart s []),
     Ret (OkCreated 0)).
Proof. intros Hf. run_syncOrders Hf. reflexivity. Qed.

Lemma syncOrders_loop_thrown_out now s orders s2 e :
  ordersFetched this s = Ret orders → orders ≠ [] →
  syncOrders_loop this orders 0 (ordersLoopStart s orders) = (s2, Throw e) →
  syncOrders this now s =
    (printed (ConsoleError "Order sync failed:" [e]) s2, Ret (Failed e)).
Proof.
  intros Hf Hne Hloop. run_syncOrders Hf.
  rewrite bool_decide_eq_false_2 by (destruct orders; [done|cbn; lia]).
  unfold ordersLoopStart, startDate in Hloop. cbn [printed syncState] in Hloop.
  rewrite Hloop. reflexivity.
Qed.

Lemma syncOrders_loop_returned now s orders s2 m :
  ordersFetched this s = Ret orders → orders ≠ [] →
  syncOrders_loop this orders 0 (ordersLoopStart s orders) = (s2, Ret m) →
  syncOrders this now s =
    (printed (ConsoleLog "Order sync complete. Created new orders." [str_of_nat m])
       (saveSyncState (withSyncState (orderStamped now (syncState s2)) s2)).1,
     Ret (OkCreated m)).
Proof.
  intros Hf Hne Hloop. run_syncOrders Hf.
  rewrite bool_decide_eq_false_2 by (destruct orders; [done|cbn; lia]).
  unfold ordersLoopStart, startDate in Hloop. cbn [printed syncState] in Hloop.
  rewrite Hloop. unfold set_lastOrderSync, mbind, M_bind, get_syncState, set_syncState.
  fold (orderStamped now (syncState s2)).
  destruct (saveSyncState_spec (withSyncState (orderStamped now (syncState s2)) s2))
    as (s3 & -> & _).
  reflexivity.
Qed.

End OrderSync.

Section Batch.
Implicit Types (p : list jsstring) (o : MiraklOrder.t) (orders : list MiraklOrder.t).

Lemma toCreate_subset p orders o : o ∈ toCreate p orders → o ∈ orders.
Proof.
  revert p. induction orders as [|o' rest IH]; intros p; cbn [toCreate]; [done|].
  case_bool_decide.
  - intros Hin. right. by eapply IH.
  - intros [->|Hin]%elem_of_cons; [left|right; by eapply IH].
Qed.

(** After a complete pass every identifier of the batch is processed. *)
Lemma toCreate_covers p orders o :
  o ∈ orders → MiraklOrder.order_id o ∈ p ++ (MiraklOrder.order_id <$> toCreate p orders).
Proof.
  revert p. induction orders as [|o' rest IH]; intros p Hin; [by apply elem_of_nil in Hin|].
  cbn [toCreate]. apply elem_of_cons in Hin as [->|Hin].
  - case_bool_decide; [by apply elem_of_app; left|].
    rewrite fmap_cons. apply elem_of_app; right; left.
  - case_bool_decide; [by apply IH|].
    rewrite fmap_cons, cons_middle, (assoc_L (++) p [_]). by apply IH.
Qed.

(** A batch whose identifiers are all processed passes nothing. *)
Lemma toCreate_all_processed p orders :
  (∀ o, o ∈ orders → MiraklOrder.order_id o ∈ p) → toCreate p orders = [].
Proof.
  induction orders as [|o rest IH]; intros Hall; [done|]. cbn [toCreate].
  rewrite bool_decide_eq_true_2 by (apply Hall; left).
  apply IH. intros o' Ho'. apply Hall. by right.
Qed.

(** The identifiers pushed by a pass are new and pairwise distinct. *)
Lemma toCreate_NoDup p orders :
  NoDup p → NoDup (p ++ (MiraklOrder.order_id <$> toCreate p orders)).
Proof.
  revert p. induction orders as [|o rest IH]; intros p Hp; cbn [toCreate].
  - by rewrite app_nil_r.
  - case_bool_decide as Hin; [by apply IH|].
    rewrite fmap_cons, cons_middle, (assoc_L (++) p [_]). apply IH.
    apply NoDup_app. split; [done|]. split; [|apply NoDup_singleton].
    intros x Hx [->|[]%elem_of_nil]%elem_of_cons. done.
Qed.

(** Each identifier passes the guard at most once, and exactly once when it
    is in the batch and not yet processed. *)
Lemma toCreate_count p orders id :
  length (List.filter (λ o, bool_decide (MiraklOrder.order_id o = id)) (toCreate p orders)) =
    if decide (id ∈ p) then 0%nat
    else if decide (id ∈ MiraklOrder.order_id <$> orders) then 1%nat else 0%nat.
Proof.
  revert p. induction orders as [|o rest IH]; intros p; cbn [toCreate].
  - cbn. destruct (decide (id ∈ p)); [done|].
    destruct (decide (id ∈ [])) as [Hin|]; [by apply elem_of_nil in Hin|done].
  - rewrite fmap_cons. case_bool_decide as Ho.
    + rewrite IH. destruct (decide (id ∈ p)) as [|Hp]; [done|].
      assert (MiraklOrder.order_id o ≠ id) by (intros Heq; subst id; contradiction).
      destruct (decide (id ∈ MiraklOrder.order_id <$> rest)) as [Hr|Hr].
      * rewrite decide_True; [done|by right].
      * rewrite decide_False; [done|]. intros [?|?]%elem_of_cons; congruence.
    + cbn [List.filter]. case_bool_decide as Heq.
      * subst id. cbn [length]. rewrite IH.
        rewrite decide_True by (apply elem_of_app; right; left).
        rewrite decide_False by done. rewrite decide_True by left. done.
      * rewrite IH.
        destruct (decide (id ∈ p)) as [Hp|Hp].
        -- rewrite decide_True; [done|]. apply elem_of_app; by left.
        -- rewrite decide_False.
           2:{ intros [?|[?|[]%elem_of_nil]%elem_of_cons]%elem_of_app; congruence. }
           destruct (decide (id ∈ MiraklOrder.order_id <$> rest)) as [Hr|Hr].
           ++ rewrite decide_True; [done|by right].
           ++ rewrite decide_False; [done|]. intros [?|?]%elem_of_cons; congruence.
Qed.

Lemma createOrderCalls_app cs cs' :
  createOrderCalls (cs ++ cs') = createOrderCalls cs ++ createOrderCalls cs'.
Proof. apply omap_app. Qed.

Lemma createOrderCalls_drafts (l : list MiraklOrder.t) :
  createOrderCalls (CreateOrder ∘ shopifyOrderData <$> l) = shopifyOrderData <$> l.
Proof. induction l as [|o l IH]; [done|]. cbn. by f_equal. Qed.

Lemma createdFor_app id cs cs' :
  createdFor id (cs ++ cs') = (createdFor id cs + createdFor id cs')%nat.
Proof.
  unfold createdFor. by rewrite createOrderCalls_app, List.filter_app, length_app.
Qed.

Lemma createdFor_drafts id (l : list MiraklOrder.t) :
  createdFor id (CreateOrder ∘ shopifyOrderData <$> l) =
  length (List.filter (λ o, bool_decide (MiraklOrder.order_id o = id)) l).
Proof.
  unfold createdFor. rewrite createOrderCalls_drafts.
  induction l as [|o l IH]; [done|]. cbn [fmap list_fmap List.filter].
  cbn [shopifyOrderData Draft.note].
  destruct (decide (MiraklOrder.order_id o = id)) as [->|Hne].
  - rewrite !bool_decide_eq_true_2 by done. cbn [length]. by f_equal.
  - rewrite !bool_decide_eq_false_2; [done|done|].
    intros Heq. by apply app_inv_head in Heq.
Qed.

End Batch.

Section OrderSyncSpec.
Context `{!JsonCodec} (this : SyncManager).
Implicit Types (s : Sys) (o : MiraklOrder.t) (orders : list MiraklOrder.t).

(** The whole routine, by what the marketplace answered and how the loop
    ended. *)
Lemma syncOrders_spec now s s' r :
  syncOrders this now s = (s', r) →
  match ordersFetched this s with
  | Throw e =>
      r = Ret (Failed e) ∧ syncState s' = syncState s ∧ fs s' = fs s
      ∧ calls s' = calls s ++ [GetOrders (startDate s)]
  | Ret orders =>
      ∃ created,
        Forall (accepted this) created
        ∧ ((r = Ret (OkCreated (length created))
            ∧ created = toCreate (processedOrders (syncState s)) orders
            ∧ syncState s' =
                (if decide (orders = []) then syncState s
                 else orderStamped now
                        (appended (MiraklOrder.order_id <$> created) (syncState s)))
            ∧ (orders = [] ∨ writable (fs s) = false → fs s' = fs s)
            ∧ (orders ≠ [] → writable (fs s) = true →
               file (fs s') = Some (JSON_stringify (syncState s')))
            ∧ calls s' = calls s ++ [GetOrders (startDate s)]
                           ++ (CreateOrder ∘ shopifyOrderData <$> created))
           ∨ (∃ o e,
                r = Ret (Failed e)
                ∧ (created ++ [o]) `prefix_of` toCreate (processedOrders (syncState s)) orders
                ∧ orders_post (shopify this) (shopifyOrderData o) = Throw e
                ∧ syncState s' = appended (MiraklOrder.order_id <$> created) (syncState s)
                ∧ fs s' = fs s
                ∧ calls s' = calls s ++ [GetOrders (startDate s)]
                               ++ (CreateOrder ∘ shopifyOrderData <$> created)
                               ++ [CreateOrder (shopifyOrderData o)]))
  end.
Proof.
  intros Hrun.
  destruct (ordersFetched this s) as [orders|e] eqn:Hf.
  - destruct (decide (orders = [])) as [->|Hne].
    + rewrite (syncOrders_fetch_empty this now s Hf) in Hrun. injection Hrun as <- <-.
      exists []. split; [constructor|]. left. cbn.
      repeat split; done.
    + destruct (syncOrders_loop this orders 0 (ordersLoopStart s orders)) as [s2 r2] eqn:Hloop.
      destruct (syncOrders_loop_spec this _ _ _ _ _ Hloop) as (created & Hfs & Hst & Hacc & Hres).
      cbn [ordersLoopStart printed called fs syncState calls] in Hfs, Hst, Hres.
      exists created. split; [done|].
      destruct r2 as [m|e].
      * rewrite (syncOrders_loop_returned this now s orders s2 m Hf Hne Hloop) in Hrun.
        injection Hrun as <- <-. destruct Hres as (Hc & -> & Hcalls).
        destruct (saveSyncState_spec (withSyncState (orderStamped now (syncState s2)) s2))
          as (s3 & Hsave & Hst3 & Hcalls3 & Hfs3 & Hfile3).
        rewrite Hsave. cbn [fst printed syncState fs calls withSyncState] in *.
        left. rewrite Hst3, Hcalls3, Hst, Hcalls, <- app_assoc. cbn [length Nat.add].
        repeat split; try done.
        -- intros [?|Hw]; [done|]. rewrite Hfs3; [done|]. by rewrite Hfs.
        -- intros _ Hw. rewrite Hfile3; [by rewrite Hst|]. by rewrite Hfs.
      * rewrite (syncOrders_loop_thrown_out this now s orders s2 e Hf Hne Hloop) in Hrun.
        injection Hrun as <- <-. destruct Hres as (o & Hpre & Hthrow & Hcalls).
        right. exists o, e. cbn [printed syncState fs calls].
        rewrite Hcalls, <- app_assoc. repeat split; done.
  - rewrite (syncOrders_fetch_thrown this now s e Hf) in Hrun. injection Hrun as <- <-.
    cbn. repeat split; done.
Qed.

End OrderSyncSpec.

Section OrderSyncClaims.
Context `{!JsonCodec}.
Implicit Types (this : SyncManager) (s : Sys) (o : MiraklOrder.t)
  (orders : list MiraklOrder.t).

(** C5.  Every execution of [syncOrders] only appends to [processedOrders]:
    the identifiers present before the run are a prefix of those present
    after it.  It also keeps them distinct: if no identifier was listed twice
    before the run, none is after it, whatever batch was fetched (repeated
    identifiers included) and however the run ended. *)
Theorem processedOrders_append_only this now s :
  processedOrders (syncState s)
    `prefix_of` processedOrders (syncState (syncOrders this now s).1)
  ∧ (NoDup (processedOrders (syncState s)) →
     NoDup (processedOrders (syncState (syncOrders this now s).1))).
Proof.
  destruct (syncOrders this now s) as [s' r] eqn:Hrun. cbn [fst].
  pose proof (syncOrders_spec this now s s' r Hrun) as Hspec.
  destruct (ordersFetched this s) as [orders|e].
  - destruct Hspec as (created & _ & [(_ & Hc & Hst & _)|(o & e & _ & Hpre & _ & Hst & _)]).
    + rewrite Hst. destruct (decide (orders = [])); [done|].
      cbn [orderStamped appended processedOrders]. split; [by apply prefix_app_r|].
      intros Hnd. rewrite Hc. by apply toCreate_NoDup.
    + rewrite Hst. cbn [appended processedOrders]. split; [by apply prefix_app_r|].
      intros Hnd.
      pose proof (toCreate_NoDup _ orders Hnd) as Hall.
      eapply sublist_NoDup; [exact Hall|].
      destruct Hpre as [k Hk]. rewrite Hk, !fmap_app, <- app_assoc.
      apply sublist_app; [done|]. by apply sublist_inserts_r.
  - destruct Hspec as (_ & -> & _). done.
Qed.

(** C4.  If a [createOrder] call made during a run of [syncOrders] is
    refused, that call is the last request of the run (no order after it is
    submitted), the routine returns the refusal as a failure result instead
    of throwing, the checkpoint file is left as it was, and [lastOrderSync]
    is not advanced. *)
Theorem syncOrders_createOrder_failure this now s s' r new d e :
  syncOrders this now s = (s', r) →
  calls s' = calls s ++ new →
  CreateOrder d ∈ new →
  orders_post (shopify this) d = Throw e →
  r = Ret (Failed e)
  ∧ (∃ before, new = before ++ [CreateOrder d])
  ∧ fs s' = fs s
  ∧ lastOrderSync (syncState s') = lastOrderSync (syncState s).
Proof.
  intros Hrun Hnew Hin Hthrow.
  pose proof (syncOrders_spec this now s s' r Hrun) as Hspec.
  assert (Hacc : ∀ created, Forall (accepted this) created →
            CreateOrder d ∉ (CreateOrder ∘ shopifyOrderData <$> created)).
  { intros created Hall (o & [= ->] & Ho)%list_elem_of_fmap.
    rewrite Forall_forall in Hall. destruct (Hall o Ho) as [so Hso]. congruence. }
  destruct (ordersFetched this s) as [orders|e'].
  - destruct Hspec as (created & Hall & [(_ & _ & _ & _ & _ & Hcalls)|(o & e' & -> & _ & Hpost & Hst & Hfs & Hcalls)]).
    + rewrite Hcalls in Hnew. apply app_inv_head in Hnew. subst new.
      apply elem_of_cons in Hin as [[=]|Hin]. by apply Hacc in Hin.
    + rewrite Hcalls in Hnew. apply app_inv_head in Hnew. subst new.
      apply elem_of_cons in Hin as [[=]|Hin].
      apply elem_of_app in Hin as [Hin|Hin]; [by apply Hacc in Hin|].
      apply list_elem_of_singleton in Hin as [= ->].
      assert (e' = e) as -> by congruence.
      split; [done|]. split; [|split; [done|by rewrite Hst]].
      by exists (GetOrders (startDate s) :: (CreateOrder ∘ shopifyOrderData <$> created)).
  - destruct Hspec as (_ & _ & _ & Hcalls).
    rewrite Hcalls in Hnew. apply app_inv_head in Hnew. subst new.
    by apply list_elem_of_singleton in Hin.
Qed.

(** C1.  Two runs of [syncOrders] over the same batch, the first one
    successful: over both runs exactly one [createOrder] call is made for
    every identifier of the batch that was not processed before, and none for
    an identifier that was; every [createOrder] call of the two runs was
    accepted by the storefront, so that each such identifier has exactly one
    storefront order, made from an order of the batch; the second run makes
    no [createOrder] call at all, leaves [processedOrders] as it is and
    reports zero created orders.  In any state, the loop passes over an
    order whose identifier is in [processedOrders] with one console line and
    nothing else: no request, no change of the checkpoint. *)
Theorem syncOrders_idempotent this1 this2 now1 now2 s0 s1 s2 orders n r2 :
  ordersFetched this1 s0 = Ret orders →
  syncOrders this1 now1 s0 = (s1, Ret (OkCreated n)) →
  ordersFetched this2 s1 = Ret orders →
  syncOrders this2 now2 s1 = (s2, r2) →
  (∀ id, id ∈ (MiraklOrder.order_id <$> orders) →
     createdFor id (calls s2) =
       (createdFor id (calls s0)
        + if decide (id ∈ processedOrders (syncState s0)) then 0 else 1)%nat)
  ∧ (∃ new,
       calls s2 = calls s0 ++ new
       ∧ (∀ d, CreateOrder d ∈ new → ∃ so, orders_post (shopify this1) d = Ret so)
       ∧ (∀ id, id ∈ (MiraklOrder.order_id <$> orders) →
            id ∉ processedOrders (syncState s0) →
            ∃ o so, o ∈ orders ∧ MiraklOrder.order_id o = id
                    ∧ CreateOrder (shopifyOrderData o) ∈ new
                    ∧ orders_post (shopify this1) (shopifyOrderData o) = Ret so)
       ∧ n = length (createOrderCalls new))
  ∧ createOrderCalls (calls s2) = createOrderCalls (calls s1)
  ∧ processedOrders (syncState s2) = processedOrders (syncState s1)
  ∧ r2 = Ret (OkCreated 0)
  ∧ (∀ o rest k s,
       MiraklOrder.order_id o ∈ processedOrders (syncState s) →
       syncOrders_loop this2 (o :: rest) k s =
       syncOrders_loop this2 rest k
         (printed (ConsoleLog "Skipping already processed order:"
                     [MiraklOrder.order_id o]) s)).
Proof.
  intros Hf1 Hrun1 Hf2 Hrun2.
  pose proof (syncOrders_spec this1 now1 s0 s1 _ Hrun1) as Hspec1.
  pose proof (syncOrders_spec this2 now2 s1 s2 _ Hrun2) as Hspec2.
  rewrite Hf1 in Hspec1. rewrite Hf2 in Hspec2.
  destruct Hspec1 as (created1 & Hacc1
                      & [(Hn & Hc1 & Hst1 & _ & _ & Hcalls1)|(? & ? & [=] & _)]).
  injection Hn as Hn.
  assert (Hall : ∀ o, o ∈ orders → MiraklOrder.order_id o ∈ processedOrders (syncState s1)).
  { intros o Ho. rewrite Hst1. destruct (decide (orders = [])) as [->|_].
    - by apply elem_of_nil in Ho.
    - cbn [orderStamped appended processedOrders]. rewrite Hc1. by apply toCreate_covers. }
  pose proof (toCreate_all_processed _ _ Hall) as Hnil.
  destruct Hspec2 as (created2 & _ & [(-> & Hc2 & Hst2 & _ & _ & Hcalls2)|(o & e & _ & Hpre & _)]).
  2:{ rewrite Hnil in Hpre. apply prefix_nil_inv in Hpre. by destruct created2. }
  rewrite Hnil in Hc2. subst created2. cbn [fmap list_fmap] in Hcalls2.
  assert (Hp2 : processedOrders (syncState s2) = processedOrders (syncState s1)).
  { rewrite Hst2. destruct (decide (orders = [])); [done|].
    cbn [orderStamped appended processedOrders]. by rewrite app_nil_r. }
  split; [|split; [|split; [|split; [done|split; [done|]]]]].
  - intros id Hid. rewrite Hcalls2, Hcalls1, !createdFor_app, createdFor_drafts, Hc1.
    rewrite toCreate_count. rewrite (decide_True _ _ Hid).
    unfold createdFor at 2 3. cbn. lia.
  - exists ([GetOrders (startDate s0)] ++ (CreateOrder ∘ shopifyOrderData <$> created1)
            ++ [GetOrders (startDate s1)]).
    split; [by rewrite Hcalls2, Hcalls1, app_nil_r, <- !app_assoc|].
    rewrite Forall_forall in Hacc1.
    split; [|split].
    + intros d Hin.
      apply elem_of_app in Hin as [Hin|Hin]; [by apply list_elem_of_singleton in Hin|].
      apply elem_of_app in Hin as [Hin|Hin]; [|by apply list_elem_of_singleton in Hin].
      apply list_elem_of_fmap in Hin as (o & [= ->] & Ho). by apply Hacc1.
    + intros id Hid Hnew.
      apply list_elem_of_fmap in Hid as (o0 & -> & Ho0).
      pose proof (toCreate_covers (processedOrders (syncState s0)) orders o0 Ho0) as Hcov.
      apply elem_of_app in Hcov as [Hcov|Hcov]; [done|].
      rewrite <- Hc1 in Hcov.
      apply list_elem_of_fmap in Hcov as (o & Hido & Ho).
      destruct (Hacc1 o Ho) as [so Hso].
      exists o, so. split; [|split; [done|split; [|done]]].
      * apply (toCreate_subset (processedOrders (syncState s0))). by rewrite <- Hc1.
      * apply elem_of_app. right. apply elem_of_app. left.
        by apply (list_elem_of_fmap_2 (CreateOrder ∘ shopifyOrderData)).
    + rewrite !createOrderCalls_app, createOrderCalls_drafts. cbn.
      by rewrite app_nil_r, length_fmap.
  - rewrite Hcalls2, createOrderCalls_app. cbn. by rewrite app_nil_r.
  - intros o rest k s Hin. by apply syncOrders_loop_skip.
Qed.

(** C10 (as amended).  Every draft that a run of [syncOrders] submits is the
    draft of an order of the fetched batch, and its email is the customer's
    email when that is a non-empty string, and [noemail@mirakl.order] when
    the customer or the email is absent or the email is the empty string; a
    draft is never submitted with an empty email. *)
Theorem syncOrders_email_fallback this now s s' r new d :
  syncOrders this now s = (s', r) →
  calls s' = calls s ++ new →
  CreateOrder d ∈ new →
  ∃ orders o,
    ordersFetched this s = Ret orders ∧ o ∈ orders ∧ d = shopifyOrderData o
    ∧ Draft.email d =
        match MiraklOrder.customer o ≫= Customer.email with
        | Some (c :: email) => c :: email
        | _ => NOEMAIL
        end
    ∧ Draft.email d ≠ [].
Proof.
  intros Hrun Hnew Hin.
  pose proof (syncOrders_spec this now s s' r Hrun) as Hspec.
  assert (Hemail : ∀ o, Draft.email (shopifyOrderData o) =
            match MiraklOrder.customer o ≫= Customer.email with
            | Some (c :: email) => c :: email
            | _ => NOEMAIL
            end ∧ Draft.email (shopifyOrderData o) ≠ []).
  { intros o. unfold shopifyOrderData, or_str. cbn [Draft.email].
    destruct (MiraklOrder.customer o) as [[[[|c email]|]]|]; cbn;
      (split; [done|]); first [done | vm_compute; intros Hnil; discriminate Hnil]. }
  destruct (ordersFetched this s) as [orders|e].
  - destruct Hspec as (created & _ & [(_ & Hc & _ & _ & _ & Hcalls)
                                     |(o & e & _ & Hpre & _ & _ & _ & Hcalls)]).
    + rewrite Hcalls in Hnew. apply app_inv_head in Hnew. subst new.
      apply elem_of_cons in Hin as [[=]|Hin].
      apply list_elem_of_fmap in Hin as (o & [= ->] & Ho).
      exists orders, o. rewrite Hc in Ho. apply toCreate_subset in Ho.
      destruct (Hemail o). by repeat split.
    + rewrite Hcalls in Hnew. apply app_inv_head in Hnew. subst new.
      apply elem_of_cons in Hin as [[=]|Hin].
      assert (∃ o', o' ∈ created ++ [o] ∧ d = shopifyOrderData o') as (o' & Ho & ->).
      { apply elem_of_app in Hin as [Hin|Hin].
        - apply list_elem_of_fmap in Hin as (o' & [= ->] & Ho).
          exists o'. split; [|done]. apply elem_of_app. by left.
        - apply list_elem_of_singleton in Hin as [= ->].
          exists o. split; [|done]. apply elem_of_app. right. left. }
      exists orders, o'. eapply elem_of_prefix in Ho; [|exact Hpre].
      apply toCreate_subset in Ho. destruct (Hemail o'). by repeat split.
  - destruct Hspec as (_ & _ & _ & Hcalls).
    rewrite Hcalls in Hnew. apply app_inv_head in Hnew. subst new.
    by apply list_elem_of_singleton in Hin.
Qed.

End OrderSyncClaims.

Lemma processedOrders_append_only_witness :
  let s' := (@syncOrders Sample.codec (Sample.manager None Sample.batch)
               Sample.now1 Sample.sys0).1 in
  NoDup (processedOrders (syncState Sample.sys0))
  ∧ processedOrders (syncState Sample.sys0) `prefix_of` processedOrders (syncState s')
  ∧ NoDup (processedOrders (syncState s')).
Proof.
  intros s'.
  assert (Hnd : NoDup (processedOrders (syncState Sample.sys0))) by apply NoDup_nil_2.
  destruct (@processedOrders_append_only Sample.codec (Sample.manager None Sample.batch)
              Sample.now1 Sample.sys0) as [Hpre Hkeep].
  split; [exact Hnd|]. split; [exact Hpre|exact (Hkeep Hnd)].
Defined.

Lemma syncOrders_createOrder_failure_witness :
  let this := Sample.manager (Some (lit "B2")) Sample.batch in
  let run := @syncOrders Sample.codec this Sample.now1 Sample.sys0 in
  let d := shopifyOrderData (Sample.order (lit "B2") None) in
  let new := [GetOrders None;
              CreateOrder (shopifyOrderData (Sample.order (lit "A1") (Some (lit "a@example.org"))));
              CreateOrder d] in
  calls run.1 = calls Sample.sys0 ++ new
  ∧ CreateOrder d ∈ new
  ∧ orders_post (shopify this) d = Throw (lit "Request failed with status code 422")
  ∧ run.2 = Ret (Failed (lit "Request failed with status code 422"))
  ∧ (∃ before, new = before ++ [CreateOrder d])
  ∧ fs run.1 = fs Sample.sys0
  ∧ lastOrderSync (syncState run.1) = lastOrderSync (syncState Sample.sys0).
Proof.
  intros this run d new.
  assert (Hrun : run = (run.1, run.2)) by (by destruct run).
  assert (Hcalls : calls run.1 = calls Sample.sys0 ++ new) by (vm_compute; reflexivity).
  assert (Hin : CreateOrder d ∈ new) by (right; right; left).
  assert (Hthrow : orders_post (shopify this) d
                   = Throw (lit "Request failed with status code 422"))
    by (vm_compute; reflexivity).
  split; [exact Hcalls|]. split; [exact Hin|]. split; [exact Hthrow|].
  exact (@syncOrders_createOrder_failure Sample.codec this Sample.now1 Sample.sys0
           run.1 run.2 new d _ Hrun Hcalls Hin Hthrow).
Defined.

Lemma syncOrders_idempotent_witness :
  let this := Sample.manager None Sample.batch in
  let run1 := @syncOrders Sample.codec this Sample.now1 Sample.sys0 in
  let run2 := @syncOrders Sample.codec this Sample.now2 run1.1 in
  ordersFetched this Sample.sys0 = Ret Sample.batch
  ∧ run1 = (run1.1, Ret (OkCreated 2))
  ∧ ordersFetched this run1.1 = Ret Sample.batch
  ∧ (∀ id, id ∈ (MiraklOrder.order_id <$> Sample.batch) →
       createdFor id (calls run2.1) =
         (createdFor id (calls Sample.sys0)
          + if decide (id ∈ processedOrders (syncState Sample.sys0)) then 0 else 1)%nat)
  ∧ (∃ new,
       calls run2.1 = calls Sample.sys0 ++ new
       ∧ (∀ d, CreateOrder d ∈ new → ∃ so, orders_post (shopify this) d = Ret so)
       ∧ (∀ id, id ∈ (MiraklOrder.order_id <$> Sample.batch) →
            id ∉ processedOrders (syncState Sample.sys0) →
            ∃ o so, o ∈ Sample.batch ∧ MiraklOrder.order_id o = id
                    ∧ CreateOrder (shopifyOrderData o) ∈ new
                    ∧ orders_post (shopify this) (shopifyOrderData o) = Ret so)
       ∧ 2%nat = length (createOrderCalls new))
  ∧ createOrderCalls (calls run2.1) = createOrderCalls (calls run1.1)
  ∧ processedOrders (syncState run2.1) = processedOrders (syncState run1.1)
  ∧ run2.2 = Ret (OkCreated 0)
  ∧ createdFor (lit "A1") (calls run2.1) = 1%nat
  ∧ createdFor (lit "B2") (calls run2.1) = 1%nat.
Proof.
  intros this run1 run2.
  assert (H1 : ordersFetched this Sample.sys0 = Ret Sample.batch) by reflexivity.
  assert (H2 : run1 = (run1.1, Ret (OkCreated 2))) by (vm_compute; reflexivity).
  assert (H3 : ordersFetched this run1.1 = Ret Sample.batch) by reflexivity.
  assert (H4 : run2 = (run2.1, run2.2)) by (by destruct run2).
  split; [exact H1|]. split; [exact H2|]. split; [exact H3|].
  destruct (@syncOrders_idempotent Sample.codec this this Sample.now1 Sample.now2
              Sample.sys0 run1.1 run2.1 Sample.batch 2 run2.2 H1 H2 H3 H4)
    as (Hcount & Hstore & Hcalls & Hprocessed & Hresult & _).
  split; [exact Hcount|]. split; [exact Hstore|].
  split; [exact Hcalls|]. split; [exact Hprocessed|].
  split; [exact Hresult|]. split.
  - etrans; [apply Hcount; left|]. reflexivity.
  - etrans; [apply Hcount; right; left|]. reflexivity.
Defined.

Lemma syncOrders_email_fallback_witness :
  let this := Sample.manager None Sample.batch in
  let run := @syncOrders Sample.codec this Sample.now1 Sample.sys0 in
  let d := shopifyOrderData (Sample.order (lit "B2") None) in
  let new := [GetOrders None;
              CreateOrder (shopifyOrderData (Sample.order (lit "A1") (Some (lit "a@example.org"))));
              CreateOrder d] in
  calls run.1 = calls Sample.sys0 ++ new
  ∧ CreateOrder d ∈ new
  ∧ Draft.email d = NOEMAIL
  ∧ (∃ orders o,
      ordersFetched this Sample.sys0 = Ret orders ∧ o ∈ orders ∧ d = shopifyOrderData o
      ∧ Draft.email d =
          match MiraklOrder.customer o ≫= Customer.email with
          | Some (c :: email) => c :: email
          | _ => NOEMAIL
          end
      ∧ Draft.email d ≠ []).
Proof.
  intros this run d new.
  assert (Hrun : run = (run.1, run.2)) by (by destruct run).
  assert (Hcalls : calls run.1 = calls Sample.sys0 ++ new) by (vm_compute; reflexivity).
  assert (Hin : CreateOrder d ∈ new) by (right; right; left).
  split; [exact Hcalls|]. split; [exact Hin|]. split; [reflexivity|].
  exact (@syncOrders_email_fallback Sample.codec this Sample.now1 Sample.sys0
           run.1 run.2 new d Hrun Hcalls Hin).
Defined.

(** C10 (as stated) fails for a customer whose email is the empty string:
    the field is present, and the draft carries the placeholder instead. *)
Lemma order_email_empty_counterexample :
  let o := Sample.order (lit "A1") (Some []) in
  MiraklOrder.customer o ≫= Customer.email = Some []
  ∧ Draft.email (shopifyOrderData o) = NOEMAIL
  ∧ Some (Draft.email (shopifyOrderData o)) ≠ MiraklOrder.customer o ≫= Customer.email.
Proof.
  cbv zeta. split; [reflexivity|]. split; [reflexivity|]. vm_compute. discriminate.
Qed.

(** ** Correlation of storefront orders with marketplace orders *)

Section Correlation.
Implicit Types (s t literal : jsstring) (excluded : N → bool).

Lemma strip_prefix_app literal s : strip_prefix literal (literal ++ s) = Some s.
Proof.
  induction literal as [|a l IH]; [by destruct s|].
  cbn. by rewrite N.eqb_refl.
Qed.

Lemma take_while_all (keep : N → bool) s :
  Forall (λ c, keep c = true) s → take_while keep s = s.
Proof. induction 1 as [|c s Hc _ IH]; [done|]. cbn. by rewrite Hc, IH. Qed.

Lemma match_capture_here literal excluded s cap :
  match_here literal excluded s = Some cap → match_capture literal excluded s = Some cap.
Proof. intros Hm. destruct s; cbn [match_capture]; by rewrite Hm. Qed.

(** A capture is never the empty string. *)
Lemma match_capture_nonempty literal excluded s :
  match_capture literal excluded s ≠ Some [].
Proof.
  induction s as [|c s IH]; cbn [match_capture]; unfold match_here.
  - destruct (strip_prefix literal []); [|done].
    by destruct (take_while _ _).
  - destruct (strip_prefix literal (c :: s)) as [rest|]; [|done].
    by destruct (take_while _ rest).
Qed.

Lemma match_capture_nil literal excluded : match_capture literal excluded [] = None.
Proof.
  pose proof (match_capture_nonempty literal excluded []) as Hne.
  cbn [match_capture] in *. unfold match_here in *.
  destruct (strip_prefix literal []) as [rest|] eqn:Hp; [|done].
  destruct literal; [|done]. injection Hp as <-. done.
Qed.

(** The literal followed by a non-empty run outside the excluded class is
    matched at once, and the whole run is captured. *)
Lemma match_capture_literal literal excluded id :
  id ≠ [] → Forall (λ c, excluded c = false) id →
  match_capture literal excluded (literal ++ id) = Some id.
Proof.
  intros Hne Hid. apply match_capture_here. unfold match_here.
  rewrite strip_prefix_app, take_while_all.
  - by destruct id.
  - eapply Forall_impl; [exact Hid|]. by intros c ->.
Qed.

(** The extractor: the note's capture when there is one, else the tags'. *)
Lemma extractMiraklOrderId_captures (so : ShopifyOrder.t) :
  Full.extractMiraklOrderId so =
    match noteCapture (ShopifyOrder.note so) with
    | Some id => Some id
    | None => tagsCapture (ShopifyOrder.tags so)
    end.
Proof.
  unfold Full.extractMiraklOrderId, noteCapture, tagsCapture.
  destruct (ShopifyOrder.note so) as [[|c n]|], (ShopifyOrder.tags so) as [[|c' t]|];
    cbn [mbind option_bind]; rewrite ?match_capture_nil; reflexivity.
Qed.

End Correlation.

Section Tracking.
Context `{!JsonCodec} (this : SyncManager).

(** An order without a recoverable identifier costs one console line. *)
Lemma syncTracking_loop_skip (so : ShopifyOrder.t) rest n s :
  Full.extractMiraklOrderId so = None →
  Full.syncTracking_loop this (so :: rest) n s =
  Full.syncTracking_loop this rest n
    (printed (ConsoleLog "Could not extract Mirakl order ID from Shopify order"
                [str_of_N (ShopifyOrder.order_number so)]) s).
Proof. intros Hx. cbn [Full.syncTracking_loop]. rewrite Hx. reflexivity. Qed.

End Tracking.

(** C3 (as amended).  For every non-empty marketplace order identifier
    without whitespace, a storefront order that carries the note written by
    [syncOrders] gives the identifier back through [extractMiraklOrderId],
    whatever its tags.  The extractor answers with what the note pattern
    captures when the note matches, and only otherwise with what the tag
    pattern captures in the tags; when neither matches it answers null, and
    the tracking loop then goes on with the next order, having sent no
    request for this one. *)
Theorem correlation_round_trip `{!JsonCodec} (o : MiraklOrder.t) (so : ShopifyOrder.t) :
  MiraklOrder.order_id o ≠ [] →
  no_whitespace (MiraklOrder.order_id o) →
  ShopifyOrder.note so = Some (Draft.note (shopifyOrderData o)) →
  Full.extractMiraklOrderId so = Some (MiraklOrder.order_id o)
  ∧ (∀ so' : ShopifyOrder.t,
       Full.extractMiraklOrderId so' =
         match noteCapture (ShopifyOrder.note so') with
         | Some id => Some id
         | None => tagsCapture (ShopifyOrder.tags so')
         end)
  ∧ (∀ (so' : ShopifyOrder.t) this rest n s,
       noteCapture (ShopifyOrder.note so') = None →
       tagsCapture (ShopifyOrder.tags so') = None →
       Full.extractMiraklOrderId so' = None
       ∧ ∃ s', calls s' = calls s
               ∧ Full.syncTracking_loop this (so' :: rest) n s =
                 Full.syncTracking_loop this rest n s').
Proof.
  intros Hne Hws Hnote. split; [|split].
  - rewrite extractMiraklOrderId_captures, Hnote. cbn [shopifyOrderData Draft.note].
    unfold noteCapture. cbn [mbind option_bind]. unfold NOTE_PREFIX.
    by rewrite match_capture_literal.
  - apply extractMiraklOrderId_captures.
  - intros so' this rest n s Hn Ht.
    assert (Hx : Full.extractMiraklOrderId so' = None).
    { by rewrite extractMiraklOrderId_captures, Hn, Ht. }
    split; [done|]. eexists. split; [|by apply syncTracking_loop_skip]. done.
Qed.

Lemma correlation_round_trip_witness :
  let o := Sample.order (lit "ABC123") None in
  let so := Sample.storedOrder (shopifyOrderData o) in
  MiraklOrder.order_id o ≠ []
  ∧ no_whitespace (MiraklOrder.order_id o)
  ∧ ShopifyOrder.note so = Some (Draft.note (shopifyOrderData o))
  ∧ Full.extractMiraklOrderId so = Some (lit "ABC123").
Proof.
  intros o so.
  assert (Hne : MiraklOrder.order_id o ≠ []) by (vm_compute; discriminate).
  assert (Hws : no_whitespace (MiraklOrder.order_id o)).
  { unfold no_whitespace. repeat (constructor; [reflexivity|]). constructor. }
  assert (Hnote : ShopifyOrder.note so = Some (Draft.note (shopifyOrderData o)))
    by reflexivity.
  split; [exact Hne|]. split; [exact Hws|]. split; [exact Hnote|].
  exact (proj1 (@correlation_round_trip Sample.codec o so Hne Hws Hnote)).
Defined.

(** C3 (as stated) fails for the empty identifier, which contains no
    whitespace: neither pattern matches the note and the tags that
    [syncOrders] writes for it, and the extractor answers null. *)
Lemma correlation_empty_id_counterexample :
  let o := Sample.order [] None in
  let so := Sample.storedOrder (shopifyOrderData o) in
  no_whitespace (MiraklOrder.order_id o)
  ∧ ShopifyOrder.note so = Some (lit "Mirakl Order ID: ")
  ∧ ShopifyOrder.tags so = Some (lit "Mirakl,Order-")
  ∧ Full.extractMiraklOrderId so = None
  ∧ Full.extractMiraklOrderId so ≠ Some (MiraklOrder.order_id o).
Proof.
  cbv zeta. split; [constructor|]. split; [reflexivity|]. split; [reflexivity|].
  split; [reflexivity|]. vm_compute. discriminate.
Qed.

(** When the note is lost, the tags written by [syncOrders] still give back
    an identifier that has no whitespace and no comma. *)
Lemma tagsCapture_round_trip (id : jsstring) :
  id ≠ [] → Forall (λ c, is_space c || (c =? COMMA) = false) id →
  tagsCapture (Some (TAGS_PREFIX ++ id)) = Some id.
Proof.
  intros Hne Hid. unfold tagsCapture. cbn [mbind option_bind].
  change TAGS_PREFIX with (lit "Mirakl," ++ lit "Order-").
  rewrite <- app_assoc.
  pose proof (match_capture_literal (lit "Order-") (λ c, is_space c || (c =? COMMA)) id Hne Hid)
    as Hm.
  revert Hm. generalize (lit "Order-" ++ id). intros t Ht.
  vm_compute (lit "Mirakl,"). cbn [app].
  repeat (cbn [match_capture]; unfold match_here at 1; cbn [strip_prefix lit];
          change (lit "Order-") with (79 :: lit "rder-"); cbn [strip_prefix N.eqb Pos.eqb]).
  exact Ht.
Qed.

(** ** Loading the checkpoint *)

Section Checkpoint.
Context `{!JsonCodec}.

Lemma loadSyncState_variants s : Simplified.loadSyncState s = Full.loadSyncState s.
Proof. reflexivity. Qed.

Ltac run_loadSyncState :=
  unfold Full.loadSyncState, try_catch, mbind, M_bind, existsSync, readFileSync, lift;
  cbn.

Lemma loadSyncState_missing s :
  file (fs s) = None → Full.loadSyncState s = (s, Ret Full.zeroState).
Proof. intros Hf. run_loadSyncState. rewrite Hf. reflexivity. Qed.

Lemma loadSyncState_unreadable s content :
  file (fs s) = Some content → readable (fs s) = false →
  Full.loadSyncState s =
    (printed (ConsoleError "Error loading sync state:"
                [lit "EACCES: permission denied, open 'sync-state.json'"]) s,
     Ret Full.zeroState).
Proof. intros Hf Hr. run_loadSyncState. rewrite Hf. cbn. rewrite Hf, Hr. reflexivity. Qed.

Lemma loadSyncState_unparsable s content e :
  file (fs s) = Some content → readable (fs s) = true →
  JSON_parse content = Throw e →
  Full.loadSyncState s =
    (printed (ConsoleError "Error loading sync state:" [e]) s, Ret Full.zeroState).
Proof.
  intros Hf Hr Hp. run_loadSyncState. rewrite Hf. cbn. rewrite Hf, Hr, Hp. reflexivity.
Qed.

Lemma loadSyncState_parsed s content st :
  file (fs s) = Some content → readable (fs s) = true →
  JSON_parse content = Ret st →
  Full.loadSyncState s = (s, Ret st).
Proof.
  intros Hf Hr Hp. run_loadSyncState. rewrite Hf. cbn. rewrite Hf, Hr, Hp. reflexivity.
Qed.

(** C9 (as amended).  [loadSyncState] never throws.  When the checkpoint
    file is missing it returns the zero-value checkpoint and prints nothing;
    when the file exists but cannot be read, or its content does not parse,
    it returns the zero-value checkpoint after one error line on the
    console; when the file is read and parses, it returns the parsed
    checkpoint.  The zero-value checkpoint has no timestamp and no processed
    order.  This holds in both programs. *)
Theorem loadSyncState_robust (s : Sys) :
  (∃ s' st, Full.loadSyncState s = (s', Ret st))
  ∧ (file (fs s) = None → Full.loadSyncState s = (s, Ret Full.zeroState))
  ∧ (∀ content,
       file (fs s) = Some content →
       readable (fs s) = false ∨ (∃ e, JSON_parse content = Throw e) →
       ∃ e, Full.loadSyncState s =
              (printed (ConsoleError "Error loading sync state:" [e]) s,
               Ret Full.zeroState))
  ∧ (∀ content st,
       file (fs s) = Some content → readable (fs s) = true →
       JSON_parse content = Ret st →
       Full.loadSyncState s = (s, Ret st))
  ∧ Simplified.loadSyncState s = Full.loadSyncState s
  ∧ Simplified.zeroState = Full.zeroState
  ∧ Full.zeroState =
      {| lastProductSync := None; lastInventorySync := None; lastOrderSync := None;
         lastTrackingSync := None; processedOrders := [] |}.
Proof.
  split; [|split; [|split; [|split; [|done]]]].
  - destruct (file (fs s)) as [content|] eqn:Hf.
    + destruct (readable (fs s)) eqn:Hr.
      * destruct (JSON_parse content) as [st|e] eqn:Hp.
        -- rewrite (loadSyncState_parsed s content st); eauto.
        -- rewrite (loadSyncState_unparsable s content e); eauto.
      * rewrite (loadSyncState_unreadable s content); eauto.
    + rewrite loadSyncState_missing; eauto.
  - apply loadSyncState_missing.
  - intros content Hf Hbad. destruct (readable (fs s)) eqn:Hr.
    + destruct Hbad as [[=]|[e Hp]]. exists e. by apply loadSyncState_unparsable with content.
    + eexists. by apply loadSyncState_unreadable with content.
  - apply loadSyncState_parsed.
Qed.

End Checkpoint.

Lemma loadSyncState_robust_witness :
  file (fs Sample.sys0) = None
  ∧ @Full.loadSyncState Sample.codec Sample.sys0 = (Sample.sys0, Ret Full.zeroState).
Proof.
  assert (Hf : file (fs Sample.sys0) = None) by reflexivity.
  split; [exact Hf|].
  exact (proj1 (proj2 (@loadSyncState_robust Sample.codec Sample.sys0)) Hf).
Defined.

(** C9 (as stated) fails when the file is missing: the zero-value
    checkpoint is returned, but no warning is printed. *)
Lemma loadSyncState_missing_counterexample :
  file (fs Sample.sys0) = None
  ∧ (@Full.loadSyncState Sample.codec Sample.sys0).2 = Ret Full.zeroState
  ∧ console (@Full.loadSyncState Sample.codec Sample.sys0).1 = []
  ∧ console (@Simplified.loadSyncState Sample.codec Sample.sys0).1 = [].
Proof. vm_compute. repeat split; reflexivity. Qed.

(** ** The sku of an offer row *)

(** C6 (as amended).  In the simplified program the sku of an offer row is
    the variant's sku when that is a non-empty string, else its barcode when
    that is a non-empty string, else [SHOPIFY-] followed by the variant's
    identifier.  In [syncProducts] of the full program it is the variant's
    sku when non-empty and the synthesized identifier otherwise; the barcode
    is not consulted.  In both, this sku is the first and the second field
    of the row, and a variant without sku and barcode whose identifier is
    987 gets [SHOPIFY-987]. *)
Theorem offer_sku_fallback (v : Variant.t) (p : Product.t) (m : gmap N Z) :
  Simplified.offerSku v =
    match Variant.sku v, Variant.barcode v with
    | Some (c :: sku), _ => c :: sku
    | _, Some (c :: barcode) => c :: barcode
    | _, _ => lit "SHOPIFY-" ++ str_of_N (Variant.id v)
    end
  ∧ Full.offerSku v =
    match Variant.sku v with
    | Some (c :: sku) => c :: sku
    | _ => lit "SHOPIFY-" ++ str_of_N (Variant.id v)
    end
  ∧ (∃ rest, Simplified.offerLine m p v =
       Simplified.offerSku v ++ [SEMICOLON] ++ Simplified.offerSku v ++ [SEMICOLON] ++ rest)
  ∧ (∃ rest, Full.offerLine p v =
       Full.offerSku v ++ [SEMICOLON] ++ Full.offerSku v ++ [SEMICOLON] ++ rest)
  ∧ (Variant.sku v = None → Variant.barcode v = None → Variant.id v = 987 →
     Simplified.offerSku v = lit "SHOPIFY-987" ∧ Full.offerSku v = lit "SHOPIFY-987").
Proof.
  unfold Simplified.offerSku, Full.offerSku, or_str, or_opt, truthy_str.
  split; [|split; [|split; [|split]]].
  - by destruct (Variant.sku v) as [[|c s]|], (Variant.barcode v) as [[|c' b]|].
  - done.
  - eexists. unfold Simplified.offerLine. cbn [join]. reflexivity.
  - eexists. unfold Full.offerLine. cbn [join]. reflexivity.
  - intros -> -> ->. split; reflexivity.
Qed.

Lemma offer_sku_fallback_witness :
  let v := {| Variant.id := 987; Variant.sku := None; Variant.barcode := None;
              Variant.price := None; Variant.inventory_quantity := None;
              Variant.inventory_item_id := 5 |} in
  Variant.sku v = None ∧ Variant.barcode v = None ∧ Variant.id v = 987
  ∧ Simplified.offerSku v = lit "SHOPIFY-987" ∧ Full.offerSku v = lit "SHOPIFY-987".
Proof.
  intros v. split; [reflexivity|]. split; [reflexivity|]. split; [reflexivity|].
  exact (proj2 (proj2 (proj2 (proj2 (offer_sku_fallback v Sample.item ∅))))
           eq_refl eq_refl eq_refl).
Defined.

(** C6 (as stated) fails in [syncProducts] of the full program: a variant
    without sku whose barcode is [B1] gets the synthesized sku, not its
    barcode. *)
Lemma offer_sku_barcode_counterexample :
  Variant.sku Sample.variantB1 = None
  ∧ Variant.barcode Sample.variantB1 = Some (lit "B1")
  ∧ Full.offerSku Sample.variantB1 = lit "SHOPIFY-987"
  ∧ Full.offerSku Sample.variantB1 ≠ lit "B1".
Proof.
  split; [reflexivity|]. split; [reflexivity|]. split; [reflexivity|].
  vm_compute. discriminate.
Qed.

(** ** The offer-import payloads *)

Ltac run_M :=
  cbv beta iota delta
    [rethrowing try_catch request console_log console_error throw lift
     get_syncState set_syncState set_lastProductSync set_lastInventorySync
     ShopifyClient.getProducts ShopifyClient.getInventoryLevels
     MiraklClient.importProducts MiraklClient.updateOffers
     mbind M_bind mret M_ret].

Section Payloads.
Context `{!JsonCodec} (this : SyncManager).

Lemma rows_in_order {A} (row : Product.t → Variant.t → A) products :
  (product ← products; variant ← Product.variants product; [row product variant]) =
  (λ pv, row pv.1 pv.2) <$> variantsInOrder products.
Proof.
  unfold variantsInOrder. induction products as [|p products IH]; [done|].
  rewrite !bind_cons, fmap_app, IH. f_equal.
  induction (Product.variants p) as [|v vs IHv]; [done|].
  rewrite !bind_cons, fmap_app, IHv. done.
Qed.

Lemma variantsInOrder_length products :
  length (variantsInOrder products) =
  length (product ← products; Product.variants product).
Proof.
  unfold variantsInOrder. induction products as [|p products IH]; [done|].
  rewrite !bind_cons, !length_app, IH. f_equal.
  induction (Product.variants p) as [|v vs IHv]; [done|].
  rewrite bind_cons. cbn. by rewrite IHv.
Qed.

Lemma syncProducts_calls now s products :
  products_get (shopify this) = Ret products → products ≠ [] →
  calls (Full.syncProducts this now s).1 =
    calls s ++ [GetProducts; ImportProducts (join [NEWLINE] (Full.productCsvLines products))].
Proof.
  intros Hp Hne. unfold Full.syncProducts. run_M.
  rewrite Hp. rewrite bool_decide_eq_false_2 by (destruct products; [done|cbn; lia]).
  destruct (offers_imports_shop_post _ _) as [result|e].
  - match goal with |- context [saveSyncState ?x] =>
      destruct (saveSyncState_spec x) as (s3 & -> & _ & Hcalls & _) end.
    cbn [fst calls printed called withSyncState] in *. rewrite Hcalls.
    by rewrite <- app_assoc.
  - cbn [fst calls printed called]. by rewrite <- app_assoc.
Qed.

Lemma syncInventory_calls now s products levels :
  products_get (shopify this) = Ret products → products ≠ [] →
  inventory_levels_get (shopify this)
    (product ← products; Variant.inventory_item_id <$> Product.variants product)
    = Ret levels →
  calls (Simplified.syncInventory this now s).1 =
    calls s ++
    [GetProducts;
     GetInventoryLevels
       (product ← products; Variant.inventory_item_id <$> Product.variants product);
     UpdateOffers
       (join [NEWLINE] (Simplified.offerCsvLines (Simplified.inventoryMap levels) products))].
Proof.
  intros Hp Hne Hl. unfold Simplified.syncInventory. run_M.
  rewrite Hp. rewrite bool_decide_eq_false_2 by (destruct products; [done|cbn; lia]).
  unfold mbind in Hl. rewrite Hl.
  destruct (offers_imports_post _ _) as [result|e].
  - match goal with |- context [saveSyncState ?x] =>
      destruct (saveSyncState_spec x) as (s3 & -> & _ & Hcalls & _) end.
    cbn [fst calls printed called withSyncState] in *. rewrite Hcalls.
    by rewrite <- !app_assoc.
  - cbn [fst calls printed called]. by rewrite <- !app_assoc.
Qed.

Lemma Full_syncInventory_calls now s products levels :
  products_get (shopify this) = Ret products →
  (product ← products; Variant.inventory_item_id <$> Product.variants product) ≠ [] →
  inventory_levels_get (shopify this)
    (product ← products; Variant.inventory_item_id <$> Product.variants product)
    = Ret levels →
  calls (Full.syncInventory this now s).1 =
    calls s ++
    [GetProducts;
     GetInventoryLevels
       (product ← products; Variant.inventory_item_id <$> Product.variants product);
     UpdateOffers
       (join [NEWLINE] (Full.inventoryCsvLines (Full.inventoryMap levels) products))].
Proof.
  intros Hp Hne Hl. unfold Full.syncInventory. run_M.
  rewrite Hp. unfold mbind in Hl, Hne.
  rewrite bool_decide_eq_false_2.
  2:{ intros Hlen. apply Hne. by apply nil_length_inv. }
  rewrite Hl.
  destruct (offers_imports_post _ _) as [result|e].
  - match goal with |- context [saveSyncState ?x] =>
      destruct (saveSyncState_spec x) as (s3 & -> & _ & Hcalls & _) end.
    cbn [fst calls printed called withSyncState] in *. rewrite Hcalls.
    by rewrite <- !app_assoc.
  - cbn [fst calls printed called]. by rewrite <- !app_assoc.
Qed.

End Payloads.


(** C8 (as amended).  In every run, whatever the remote systems answer, the
    requests of the three routines are as follows.  [syncProducts] makes the
    offer-import call exactly when the catalogue was fetched and is not
    empty, and the payload it hands over is the header
    [sku;product-id;product-id-type;price;quantity;state;description] and
    one row per variant, in product-then-variant order, the lines joined by
    newlines; each row has the seven fields in that order, separated by
    semicolons, and only the description is wrapped in double quotes.  The
    simplified program's [syncInventory] makes the call exactly when the
    catalogue is not empty and the inventory levels were fetched, and its
    payload is built the same way with the additional header column
    [leadtime-to-ship] and the additional field [2].  The payload of the
    full program's [syncInventory] has the header [sku;quantity] and one
    two-field row per variant. *)
Theorem offer_import_payload `{!JsonCodec} this now s :
  calls (Full.syncProducts this now s).1 =
    calls s ++
    match products_get (shopify this) with
    | Ret (p :: ps) =>
        [GetProducts;
         ImportProducts
           (join [NEWLINE]
              (lit "sku;product-id;product-id-type;price;quantity;state;description"
               :: ((λ pv, Full.offerLine pv.1 pv.2) <$> variantsInOrder (p :: ps))))]
    | _ => [GetProducts]
    end
  ∧ calls (Simplified.syncInventory this now s).1 =
    calls s ++
    match products_get (shopify this) with
    | Ret (p :: ps) =>
        let ids := Variant.inventory_item_id ∘ snd <$> variantsInOrder (p :: ps) in
        GetProducts :: GetInventoryLevels ids ::
        match inventory_levels_get (shopify this) ids with
        | Ret levels =>
            [UpdateOffers
               (join [NEWLINE]
                  (lit "sku;product-id;product-id-type;price;quantity;state;description;leadtime-to-ship"
                   :: ((λ pv, Simplified.offerLine (Simplified.inventoryMap levels) pv.1 pv.2)
                         <$> variantsInOrder (p :: ps))))]
        | Throw _ => []
        end
    | _ => [GetProducts]
    end
  ∧ calls (Full.syncInventory this now s).1 =
    calls s ++
    match products_get (shopify this) with
    | Ret products =>
        let ids := Variant.inventory_item_id ∘ snd <$> variantsInOrder products in
        if decide (variantsInOrder products = []) then [GetProducts]
        else
          GetProducts :: GetInventoryLevels ids ::
          match inventory_levels_get (shopify this) ids with
          | Ret levels =>
              [UpdateOffers
                 (join [NEWLINE]
                    (lit "sku;quantity"
                     :: ((λ pv, Full.inventoryLine (Full.inventoryMap levels) pv.2)
                           <$> variantsInOrder products)))]
          | Throw _ => []
          end
    | Throw _ => [GetProducts]
    end
  ∧ (∀ p v,
       Full.offerLine p v =
         Full.offerSku v ++ [SEMICOLON] ++ Full.offerSku v ++ [SEMICOLON]
         ++ lit "SHOP_SKU" ++ [SEMICOLON]
         ++ default [] (Variant.price v) ++ [SEMICOLON]
         ++ str_of_Z (or_int (Variant.inventory_quantity v) 0) ++ [SEMICOLON]
         ++ lit "11" ++ [SEMICOLON]
         ++ [QUOTE] ++ Full.cleanDescription (Product.body_html p) ++ [QUOTE])
  ∧ (∀ m p v,
       Simplified.offerLine m p v =
         Simplified.offerSku v ++ [SEMICOLON] ++ Simplified.offerSku v ++ [SEMICOLON]
         ++ lit "SHOP_SKU" ++ [SEMICOLON]
         ++ Simplified.offerPrice v ++ [SEMICOLON]
         ++ str_of_Z (Simplified.offerQuantity m v) ++ [SEMICOLON]
         ++ lit "11" ++ [SEMICOLON]
         ++ ([QUOTE] ++ Simplified.offerDescription p ++ [QUOTE]) ++ [SEMICOLON]
         ++ lit "2")
  ∧ (∀ m v,
       Full.inventoryLine m v =
         or_str (Variant.sku v) (str_of_N (Variant.id v)) ++ [SEMICOLON]
         ++ str_of_Z (Full.inventoryQuantity m v)).
Proof.
  assert (Hids : ∀ products,
            (product ← products; Variant.inventory_item_id <$> Product.variants product)
            = (Variant.inventory_item_id ∘ snd <$> variantsInOrder products)).
  { intros products. unfold variantsInOrder.
    induction products as [|p products IH]; [done|].
    rewrite !bind_cons, fmap_app, IH. f_equal.
    induction (Product.variants p) as [|v vs IHv]; [done|].
    rewrite bind_cons, fmap_app, <- IHv. done. }
  split; [|split; [|split; [|split; [|split]]]].
  - destruct (products_get (shopify this)) as [[|p ps]|e] eqn:Hp.
    + unfold Full.syncProducts. run_M. rewrite Hp. cbn.
      by rewrite <- ?app_assoc.
    + rewrite (syncProducts_calls this now s (p :: ps) Hp) by done.
      unfold Full.productCsvLines. by rewrite rows_in_order.
    + unfold Full.syncProducts. run_M. rewrite Hp. cbn.
      by rewrite <- ?app_assoc.
  - destruct (products_get (shopify this)) as [[|p ps]|e] eqn:Hp.
    + unfold Simplified.syncInventory. run_M. rewrite Hp. cbn.
      by rewrite <- ?app_assoc.
    + cbv zeta. rewrite <- Hids.
      destruct (inventory_levels_get (shopify this) _) as [levels|e] eqn:Hl.
      * rewrite (syncInventory_calls this now s (p :: ps) levels Hp) by done.
        unfold Simplified.offerCsvLines.
        by rewrite (rows_in_order (Simplified.offerLine _)).
      * unfold Simplified.syncInventory. run_M. rewrite Hp.
        rewrite bool_decide_eq_false_2 by (cbn; lia).
        unfold mbind in Hl. rewrite Hl. cbn [fst calls printed called].
        by rewrite <- ?app_assoc.
    + unfold Simplified.syncInventory. run_M. rewrite Hp. cbn.
      by rewrite <- ?app_assoc.
  - destruct (products_get (shopify this)) as [products|e] eqn:Hp.
    + cbv zeta. rewrite <- Hids.
      destruct (decide (variantsInOrder products = [])) as [Hnil|Hne].
      * unfold Full.syncInventory. run_M. rewrite Hp.
        pose proof (Hids products) as Hi. unfold mbind in Hi.
        rewrite !Hi, Hnil. cbn. by rewrite <- ?app_assoc.
      * assert (Hne' : (product ← products;
                        Variant.inventory_item_id <$> Product.variants product) ≠ []).
        { rewrite Hids. by destruct (variantsInOrder products). }
        destruct (inventory_levels_get (shopify this) _) as [levels|e] eqn:Hl.
        -- rewrite (Full_syncInventory_calls this now s products levels Hp Hne' Hl).
           unfold Full.inventoryCsvLines.
           by rewrite (rows_in_order (λ _ v, Full.inventoryLine _ v)).
        -- unfold Full.syncInventory. run_M. rewrite Hp.
           unfold mbind in Hl, Hne'.
           rewrite bool_decide_eq_false_2.
           2:{ intros Hlen. apply Hne'. by apply nil_length_inv. }
           rewrite Hl. cbn [fst calls printed called].
           by rewrite <- ?app_assoc.
    + unfold Full.syncInventory. run_M. rewrite Hp. cbn.
      by rewrite <- ?app_assoc.
  - intros p v. unfold Full.offerLine, join_elem. cbn [join]. done.
  - intros m p v. unfold Simplified.offerLine. cbn [join]. done.
  - done.
Qed.

Lemma offer_import_payload_witness :
  let levels := [Sample.level 1 (Some 3%Z)] in
  let this := Sample.stockManager levels in
  products_get (shopify this) = Ret Sample.catalog
  ∧ Sample.catalog ≠ []
  ∧ inventory_levels_get (shopify this)
      (product ← Sample.catalog; Variant.inventory_item_id <$> Product.variants product)
      = Ret levels
  ∧ calls (@Full.syncProducts Sample.codec this Sample.now1 Sample.sys0).1 =
      [GetProducts;
       ImportProducts
         (lit "sku;product-id;product-id-type;price;quantity;state;description"
          ++ [NEWLINE] ++ lit "A1;A1;SHOP_SKU;10.00;3;11;"
          ++ [QUOTE] ++ Sample.niceItemClean ++ [QUOTE])]
  ∧ calls (@Simplified.syncInventory Sample.codec this Sample.now1 Sample.sys0).1 =
      [GetProducts; GetInventoryLevels [1];
       UpdateOffers
         (lit "sku;product-id;product-id-type;price;quantity;state;description;leadtime-to-ship"
          ++ [NEWLINE] ++ lit "A1;A1;SHOP_SKU;10.00;3;11;"
          ++ [QUOTE] ++ Sample.niceItemClean ++ [QUOTE] ++ lit ";2")]
  ∧ calls (@Full.syncProducts Sample.codec Sample2.downManager Sample.now1 Sample.sys0).1 =
      [GetProducts].
Proof.
  intros levels this.
  assert (Hp : products_get (shopify this) = Ret Sample.catalog) by reflexivity.
  assert (Hne : Sample.catalog ≠ []) by discriminate.
  assert (Hl : inventory_levels_get (shopify this)
                 (product ← Sample.catalog;
                  Variant.inventory_item_id <$> Product.variants product)
               = Ret levels) by reflexivity.
  split; [exact Hp|]. split; [exact Hne|]. split; [exact Hl|].
  destruct (@offer_import_payload Sample.codec this Sample.now1 Sample.sys0)
    as (Hproducts & Hinventory & _).
  destruct (@offer_import_payload Sample.codec Sample2.downManager Sample.now1 Sample.sys0)
    as (Hdown & _).
  split; [|split].
  - etrans; [exact Hproducts|]. vm_compute. reflexivity.
  - etrans; [exact Hinventory|]. vm_compute. reflexivity.
  - etrans; [exact Hdown|]. vm_compute. reflexivity.
Defined.

(** C8 (as stated) fails for [syncInventory] of the full program: the
    payload it hands to the offer-import call starts with [sku;quantity],
    not with the seven-column header, and its rows have no description. *)
Lemma inventory_payload_header_counterexample :
  let this := Sample.stockManager [Sample.level 1 (Some 3%Z)] in
  let payload := lit "sku;quantity" ++ [NEWLINE] ++ lit "A1;3" in
  calls (@Full.syncInventory Sample.codec this Sample.now1 Sample.sys0).1
    = [GetProducts; GetInventoryLevels [1]; UpdateOffers payload]
  ∧ strip_prefix (lit "sku;product-id;product-id-type;price;quantity;state;description")
      payload = None
  ∧ QUOTE ∉ payload.
Proof.
  cbv zeta. split; [vm_compute; reflexivity|]. split; [vm_compute; reflexivity|].
  intros Hin. apply (bool_decide_pack _) in Hin. vm_compute in Hin. exact Hin.
Qed.

(** ** Quantities *)

Section Quantities.
Implicit Types (levels : list InventoryLevel.t) (k : N).

Lemma lastLevel_snoc levels l k :
  lastLevel (levels ++ [l]) k =
    if decide (InventoryLevel.inventory_item_id l = k) then Some l
    else lastLevel levels k.
Proof.
  unfold lastLevel. rewrite reverse_snoc. cbn [List.filter].
  case_bool_decide; by case_decide.
Qed.

(** The map of the simplified program holds, for each inventory item, the
    clamped quantity of the level reported last. *)
Lemma Simplified_inventoryMap_lookup levels k :
  Simplified.inventoryMap levels !! k =
    (λ l, Z.max 0 (or_int (InventoryLevel.available l) 0)) <$> lastLevel levels k.
Proof.
  unfold Simplified.inventoryMap.
  induction levels as [|l levels IH] using rev_ind; [done|].
  rewrite foldl_snoc, lastLevel_snoc. case_decide as Hk.
  - subst k. by rewrite lookup_insert_eq.
  - by rewrite lookup_insert_ne.
Qed.

Lemma Full_inventoryMap_lookup levels k :
  Full.inventoryMap levels !! k =
    (λ l, or_int (InventoryLevel.available l) 0) <$> lastLevel levels k.
Proof.
  unfold Full.inventoryMap.
  induction levels as [|l levels IH] using rev_ind; [done|].
  rewrite foldl_snoc, lastLevel_snoc. case_decide as Hk.
  - subst k. by rewrite lookup_insert_eq.
  - by rewrite lookup_insert_ne.
Qed.

Lemma or_int_0 (a : option Z) : or_int a 0 = default 0%Z a.
Proof. destruct a as [z|]; [|done]. cbn. destruct (Z.eqb_spec z 0); congruence. Qed.

(** The quantity of an offer row of the simplified program is the reported
    quantity clamped at zero, and zero when none is reported. *)
Lemma Simplified_quantity_clamped levels (v : Variant.t) :
  Simplified.offerQuantity (Simplified.inventoryMap levels) v =
    Z.max 0 (default 0%Z (levelOf levels (Variant.inventory_item_id v)))
  ∧ (0 ≤ Simplified.offerQuantity (Simplified.inventoryMap levels) v)%Z.
Proof.
  unfold Simplified.offerQuantity, levelOf. rewrite Simplified_inventoryMap_lookup.
  split; [|lia].
  destruct (lastLevel levels _) as [l|]; cbn [fmap option_fmap option_map mbind option_bind];
    rewrite !or_int_0; [|done].
  destruct (InventoryLevel.available l); cbn [from_option id]; lia.
Qed.

(** The quantity of a row of the full program's [syncInventory] is the
    reported quantity as it is. *)
Lemma Full_quantity_unclamped levels (v : Variant.t) :
  Full.inventoryQuantity (Full.inventoryMap levels) v =
    default 0%Z (levelOf levels (Variant.inventory_item_id v)).
Proof.
  unfold Full.inventoryQuantity, levelOf. rewrite Full_inventoryMap_lookup.
  destruct (lastLevel levels _) as [l|]; cbn [fmap option_fmap option_map mbind option_bind];
    by rewrite !or_int_0.
Qed.

End Quantities.

(** C2, at the failing input.  With a level of -5 available for the
    inventory item of the variant with sku [A1], [syncInventory] of the full
    program hands the marketplace the row [A1;-5]: the quantity -5 is
    transmitted, where the simplified program's [syncInventory] transmits 0
    for the same input. *)
Theorem Full_syncInventory_negative_quantity :
  let levels := [Sample.level 1 (Some (-5)%Z)] in
  calls (@Full.syncInventory Sample.codec (Sample.stockManager levels)
           Sample.now1 Sample.sys0).1
    = [GetProducts; GetInventoryLevels [1];
       UpdateOffers (lit "sku;quantity" ++ [NEWLINE] ++ lit "A1;-5")]
  ∧ Full.inventoryQuantity (Full.inventoryMap levels) Sample.variantA1 = (-5)%Z
  ∧ Z.max 0 (default 0%Z (levelOf levels (Variant.inventory_item_id Sample.variantA1))) = 0%Z
  ∧ Simplified.offerQuantity (Simplified.inventoryMap levels) Sample.variantA1 = 0%Z.
Proof. vm_compute. repeat split; reflexivity. Qed.

(** * Further properties *)

(** ** The checkpoint file *)

Section CheckpointFile.
Context `{!JsonCodec}.
Implicit Types (s : Sys).

(** Saving never throws; it leaves the checkpoint in memory and the call log
    alone and flushes the checkpoint to the file when that can be written. *)
Lemma saveSyncState_flushed s :
  ∃ s', saveSyncState s = (s', Ret tt)
        ∧ syncState s' = syncState s ∧ calls s' = calls s ∧ flushed s s'.
Proof.
  unfold saveSyncState, try_catch, mbind, M_bind, get_syncState, writeFileSync, flushed.
  destruct (writable (fs s)) eqn:Hw; eexists; (split; [reflexivity|]); cbn;
    by rewrite ?Hw.
Qed.

(** X1.  Saving never throws and changes neither the checkpoint in memory nor the
    call log.  When the file can be written it holds the serialized
    checkpoint afterwards and nothing is printed; when it cannot, the file
    is left as it was and one error line is printed. *)
Theorem saveSyncState_outcome s :
  ∃ s', saveSyncState s = (s', Ret tt)
        ∧ syncState s' = syncState s ∧ calls s' = calls s
        ∧ flushed s s'
        ∧ (writable (fs s) = true → console s' = console s)
        ∧ (writable (fs s) = false →
           ∃ e, console s' = console s ++ [ConsoleError "Error saving sync state:" [e]]).
Proof.
  unfold saveSyncState, try_catch, mbind, M_bind, get_syncState, writeFileSync, flushed.
  destruct (writable (fs s)) eqn:Hw; eexists; (split; [reflexivity|]); cbn;
    (split; [done|]); (split; [done|]); (split; [by rewrite ?Hw|]).
  - split; [done|]. intros [=].
  - split; [intros [=]|]. intros _. by eexists.
Qed.

Lemma flushed_load s s' fresh :
  flushed s s' → writable (fs s) = true → readable (fs s) = true →
  JSON_parse (JSON_stringify (syncState s')) = Ret (syncState s') →
  fs fresh = fs s' →
  Full.loadSyncState fresh = (fresh, Ret (syncState s')).
Proof.
  unfold flushed. intros Hfl Hw Hr Hrt Hfs. rewrite Hw in Hfl.
  apply loadSyncState_parsed with (JSON_stringify (syncState s')).
  - by rewrite Hfs, Hfl.
  - by rewrite Hfs, Hfl.
  - done.
Qed.

(** X2.  Save, then load in a process that sees the same file: when the file can
    be written and read, and the codec reads back what it wrote for this
    checkpoint, the loaded checkpoint is the saved one, and nothing is
    printed. *)
Theorem save_then_load s fresh :
  writable (fs s) = true → readable (fs s) = true →
  JSON_parse (JSON_stringify (syncState s)) = Ret (syncState s) →
  fs fresh = fs (saveSyncState s).1 →
  Full.loadSyncState fresh = (fresh, Ret (syncState s))
  ∧ Simplified.loadSyncState fresh = (fresh, Ret (syncState s)).
Proof.
  intros Hw Hr Hrt Hfs.
  destruct (saveSyncState_flushed s) as (s' & Hsave & Hst & _ & Hfl).
  rewrite Hsave in Hfs. cbn [fst] in Hfs. rewrite <- Hst in Hrt |- *.
  split; [|change (Simplified.loadSyncState fresh) with (Full.loadSyncState fresh)];
    by eapply flushed_load.
Qed.

(** X3.  Save where the file cannot be written, then load: the loader sees the
    file as it was before the save. *)
Theorem save_refused_then_load s :
  writable (fs s) = false →
  fs (saveSyncState s).1 = fs s
  ∧ (Full.loadSyncState (saveSyncState s).1).2 = (Full.loadSyncState s).2.
Proof.
  intros Hw.
  destruct (saveSyncState_flushed s) as (s' & Hsave & Hst & _ & Hfl).
  rewrite Hsave. cbn [fst]. unfold flushed in Hfl. rewrite Hw in Hfl.
  split; [done|].
  unfold Full.loadSyncState, try_catch, mbind, M_bind, existsSync, readFileSync, lift.
  cbn. rewrite Hfl.
  destruct (file (fs s)) as [content|]; cbn; [|done].
  rewrite Hfl. destruct (file (fs s)); [|done].
  destruct (readable (fs s)); [|done]. by destruct (JSON_parse _).
Qed.

End CheckpointFile.

(** ** Order sync: retries, the cursor and the file *)

Section OrderSyncMore.
Context `{!JsonCodec}.
Implicit Types (this : SyncManager) (s : Sys) (o : MiraklOrder.t)
  (orders : list MiraklOrder.t).

Lemma filter_length_prefix {A} (f : A → bool) (l k : list A) :
  l `prefix_of` k → (length (List.filter f l) ≤ length (List.filter f k))%nat.
Proof. intros [t ->]. rewrite List.filter_app, length_app. lia. Qed.

Lemma createdFor_GetOrders id sd cs :
  createdFor id (GetOrders sd :: cs) = createdFor id cs.
Proof. reflexivity. Qed.

(** The [createOrder] requests of one run, by identifier: those of a prefix
    of the orders that pass the guard. *)
Lemma syncOrders_created_prefix this now s s' r :
  syncOrders this now s = (s', r) →
  ∃ sent orders,
    calls s' = calls s ++ GetOrders (startDate s) :: (CreateOrder ∘ shopifyOrderData <$> sent)
    ∧ (sent = [] ∨ (ordersFetched this s = Ret orders
                    ∧ sent `prefix_of` toCreate (processedOrders (syncState s)) orders)).
Proof.
  intros Hrun. pose proof (syncOrders_spec this now s s' r Hrun) as Hspec.
  destruct (ordersFetched this s) as [orders|e].
  - destruct Hspec as (created & _ & [(_ & Hc & _ & _ & _ & Hcalls)
                                     |(o & e & _ & Hpre & _ & _ & _ & Hcalls)]).
    + exists created, orders. split; [done|]. right. by rewrite Hc.
    + exists (created ++ [o]), orders. split; [|by right].
      rewrite Hcalls, fmap_app. done.
  - destruct Hspec as (_ & _ & _ & Hcalls). exists [], []. split; [done|by left].
Qed.

(** An identifier that is processed when a run starts gets no draft in that
    run. *)
Lemma syncOrders_processed_not_submitted this now s id :
  id ∈ processedOrders (syncState s) →
  createdFor id (calls (syncOrders this now s).1) = createdFor id (calls s).
Proof.
  intros Hin. destruct (syncOrders this now s) as [s' r] eqn:Hrun. cbn [fst].
  destruct (syncOrders_created_prefix this now s s' r Hrun) as (sent & orders & -> & Hsent).
  rewrite createdFor_app, createdFor_GetOrders, createdFor_drafts.
  destruct Hsent as [->|[_ Hpre]]; [cbn; lia|].
  pose proof (filter_length_prefix
                (λ o, bool_decide (MiraklOrder.order_id o = id)) _ _ Hpre) as Hle.
  rewrite toCreate_count, decide_True in Hle by done. lia.
Qed.

(** X4.  A run of [syncOrders] submits at most one draft per identifier, and none
    for an identifier that is in [processedOrders] when it starts, however
    the run ends. *)
Theorem syncOrders_at_most_once this now s id :
  (createdFor id (calls (syncOrders this now s).1) ≤ createdFor id (calls s) + 1)%nat
  ∧ (id ∈ processedOrders (syncState s) →
     createdFor id (calls (syncOrders this now s).1) = createdFor id (calls s)).
Proof.
  split; [|apply syncOrders_processed_not_submitted].
  destruct (syncOrders this now s) as [s' r] eqn:Hrun. cbn [fst].
  destruct (syncOrders_created_prefix this now s s' r Hrun) as (sent & orders & -> & Hsent).
  rewrite createdFor_app, createdFor_GetOrders, createdFor_drafts.
  destruct Hsent as [->|[_ Hpre]]; [cbn; lia|].
  pose proof (filter_length_prefix
                (λ o, bool_decide (MiraklOrder.order_id o = id)) _ _ Hpre) as Hle.
  rewrite toCreate_count in Hle. repeat case_decide; lia.
Qed.

(** X5.  Retry in the same process: an order the storefront accepted during a
    run is recorded in [processedOrders] in memory when the run ends, also
    when a later order of the batch made the run fail, and the next run does
    not submit it again. *)
Theorem syncOrders_retry_safe this1 this2 now1 now2 s0 s1 r1 new d so :
  syncOrders this1 now1 s0 = (s1, r1) →
  calls s1 = calls s0 ++ new →
  CreateOrder d ∈ new →
  orders_post (shopify this1) d = Ret so →
  ∃ id, Draft.note d = NOTE_PREFIX ++ id
        ∧ id ∈ processedOrders (syncState s1)
        ∧ createdFor id (calls (syncOrders this2 now2 s1).1) = createdFor id (calls s1).
Proof.
  intros Hrun Hnew Hin Hok.
  pose proof (syncOrders_spec this1 now1 s0 s1 r1 Hrun) as Hspec.
  assert (Hrec : ∀ created st, CreateOrder d ∈ (CreateOrder ∘ shopifyOrderData <$> created) →
            processedOrders st = processedOrders (syncState s0)
                                 ++ (MiraklOrder.order_id <$> created) →
            ∃ id, Draft.note d = NOTE_PREFIX ++ id ∧ id ∈ processedOrders st).
  { intros created st (o & [= ->] & Ho)%list_elem_of_fmap Hst.
    exists (MiraklOrder.order_id o). split; [done|].
    rewrite Hst. apply elem_of_app. right. by apply list_elem_of_fmap_2. }
  assert (∃ id, Draft.note d = NOTE_PREFIX ++ id ∧ id ∈ processedOrders (syncState s1))
    as (id & Hnote & Hid).
  { destruct (ordersFetched this1 s0) as [orders|e].
    - destruct Hspec as (created & _ & [(_ & Hc & Hst & _ & _ & Hcalls)
                                       |(o & e & _ & Hpre & Hthrow & Hst & _ & Hcalls)]).
      + rewrite Hcalls in Hnew. apply app_inv_head in Hnew. subst new.
        apply elem_of_cons in Hin as [[=]|Hin].
        apply (Hrec created); [done|]. rewrite Hst.
        destruct (decide (orders = [])) as [->|_]; [|done].
        rewrite Hc. cbn. by rewrite app_nil_r.
      + rewrite Hcalls in Hnew. apply app_inv_head in Hnew. subst new.
        apply elem_of_cons in Hin as [[=]|Hin].
        apply elem_of_app in Hin as [Hin|Hin].
        * apply (Hrec created); [done|]. by rewrite Hst.
        * apply list_elem_of_singleton in Hin as [= ->]. congruence.
    - destruct Hspec as (_ & _ & _ & Hcalls).
      rewrite Hcalls in Hnew. apply app_inv_head in Hnew. subst new.
      by apply list_elem_of_singleton in Hin. }
  exists id. split; [done|]. split; [done|].
  by apply syncOrders_processed_not_submitted.
Qed.

(** X6.  The cursor of the order sync: a run never touches the other timestamps;
    it sets [lastOrderSync] to the instant it read exactly when it fetched a
    batch that is not empty and got through it, and leaves it alone
    otherwise.  After an empty answer or a failed fetch the checkpoint in
    memory and the file are as before. *)
Theorem syncOrders_cursor this now s s' r :
  syncOrders this now s = (s', r) →
  lastProductSync (syncState s') = lastProductSync (syncState s)
  ∧ lastInventorySync (syncState s') = lastInventorySync (syncState s)
  ∧ lastTrackingSync (syncState s') = lastTrackingSync (syncState s)
  ∧ lastOrderSync (syncState s') =
      match ordersFetched this s, r with
      | Ret (_ :: _), Ret (OkCreated _) => Some now
      | _, _ => lastOrderSync (syncState s)
      end
  ∧ (match ordersFetched this s with Ret (_ :: _) => False | _ => True end →
     syncState s' = syncState s ∧ fs s' = fs s ∧ startDate s' = startDate s).
Proof.
  intros Hrun. pose proof (syncOrders_spec this now s s' r Hrun) as Hspec.
  unfold startDate.
  destruct (ordersFetched this s) as [orders|e].
  - destruct Hspec as (created & _ & [(-> & Hc & Hst & Hfs & _)
                                     |(o & e & -> & Hpre & _ & Hst & Hfs & _)]).
    + rewrite Hst. destruct orders as [|o orders].
      * rewrite decide_True by done. repeat split; try done. apply Hfs. by left.
      * rewrite decide_False by done. cbn. repeat split; try done.
    + rewrite Hst. destruct orders as [|o' orders].
      * apply prefix_nil_inv in Hpre. by destruct created.
      * cbn. repeat split; done.
  - destruct Hspec as (-> & Hst & Hfs & _). rewrite Hst. repeat split; done.
Qed.

(** A successful pass over a batch that is not empty leaves the checkpoint
    on file, when the file can be written. *)
Lemma syncOrders_flushed this now s s' n o orders :
  ordersFetched this s = Ret (o :: orders) →
  syncOrders this now s = (s', Ret (OkCreated n)) →
  flushed s s'.
Proof.
  intros Hf Hrun.
  destruct (syncOrders_loop this (o :: orders) 0 (ordersLoopStart s (o :: orders)))
    as [s2 r2] eqn:Hloop.
  destruct (syncOrders_loop_spec this _ _ _ _ _ Hloop) as (created & Hfs & _).
  destruct r2 as [m|e].
  - rewrite (syncOrders_loop_returned this now s _ s2 m Hf) in Hrun; [|done|done].
    injection Hrun as <- _.
    destruct (saveSyncState_flushed (withSyncState (orderStamped now (syncState s2)) s2))
      as (s3 & -> & Hst3 & _ & Hfl).
    unfold flushed in *. cbn [fst printed fs syncState withSyncState] in *.
    by rewrite Hfs in Hfl.
  - rewrite (syncOrders_loop_thrown_out this now s _ s2 e Hf) in Hrun; [|done|done].
    by injection Hrun.
Qed.

(** X7.  Checkpoint persistence: after a successful pass over a batch that is not
    empty, with a file that can be written and read and a codec that reads
    back what it wrote, a process that loads the file gets a checkpoint
    whose [lastOrderSync] is the instant of the pass and whose
    [processedOrders] holds every identifier of the batch. *)
Theorem syncOrders_checkpoint_persisted this now s s' n o orders fresh :
  ordersFetched this s = Ret (o :: orders) →
  syncOrders this now s = (s', Ret (OkCreated n)) →
  writable (fs s) = true → readable (fs s) = true →
  JSON_parse (JSON_stringify (syncState s')) = Ret (syncState s') →
  fs fresh = fs s' →
  ∃ st, Full.loadSyncState fresh = (fresh, Ret st)
        ∧ lastOrderSync st = Some now
        ∧ (∀ o', o' ∈ o :: orders → MiraklOrder.order_id o' ∈ processedOrders st)
        ∧ processedOrders (syncState s) `prefix_of` processedOrders st.
Proof.
  intros Hf Hrun Hw Hr Hrt Hfs.
  exists (syncState s'). split.
  { eapply flushed_load; [by eapply syncOrders_flushed|done..]. }
  pose proof (syncOrders_spec this now s s' _ Hrun) as Hspec. rewrite Hf in Hspec.
  destruct Hspec as (created & _ & [(_ & Hc & Hst & _)|(? & ? & [=] & _)]).
  rewrite Hst. cbn. split; [done|]. split; [|by apply prefix_app_r].
  intros o' Ho'. rewrite Hc. by apply toCreate_covers.
Qed.

End OrderSyncMore.

(** ** The offer and inventory routines, outcome by outcome *)

Section OfferRoutines.
Context `{!JsonCodec} (this : SyncManager).
Implicit Types (s : Sys).

Lemma inventoryItemIds_in_order (products : list Product.t) :
  (product ← products; Variant.inventory_item_id <$> Product.variants product)
  = (Variant.inventory_item_id ∘ snd <$> variantsInOrder products).
Proof.
  unfold variantsInOrder. induction products as [|p products IH]; [done|].
  rewrite !bind_cons, fmap_app, IH. f_equal.
  induction (Product.variants p) as [|v vs IHv]; [done|].
  rewrite bind_cons, fmap_app, <- IHv. done.
Qed.

Ltac finish_save :=
  match goal with |- context [saveSyncState ?x] =>
    let s3 := fresh "s3" in
    destruct (saveSyncState_flushed x) as (s3 & -> & Hst & Hcalls & Hfl);
    unfold flushed in *;
    cbn [fst snd printed called withSyncState syncState fs calls] in *
  end.

Ltac tidy :=
  cbn [fst snd printed called withSyncState syncState fs calls];
  repeat match goal with
    | Hs : syncState ?s3 = _, Hf : context [syncState ?s3] |- _ => rewrite Hs in Hf
    end;
  try match goal with
    | Hs : syncState ?s3 = _ |- context [syncState ?s3] => rewrite Hs
    end;
  try match goal with
    | Hc : calls ?s3 = _ |- context [calls ?s3] => rewrite Hc
    end;
  cbn [fst snd printed called withSyncState syncState fs calls
       lastProductSync lastInventorySync lastOrderSync lastTrackingSync processedOrders];
  rewrite <- ?app_assoc.

(** X8.  [syncProducts] never throws and changes no part of the checkpoint but
    [lastProductSync].  When the catalogue cannot be fetched, is empty, or
    the import is refused, the checkpoint and the file are as before, and
    for an empty catalogue nothing is sent to the marketplace; when the
    import is accepted, the marketplace's answer is returned,
    [lastProductSync] is the instant read and the checkpoint is saved. *)
Theorem syncProducts_outcome now s :
  ∃ s' r,
    Full.syncProducts this now s = (s', Ret r)
    ∧ sameButProductSync (syncState s) (syncState s')
    ∧ match products_get (shopify this) with
      | Throw e =>
          r = Failed e ∧ syncState s' = syncState s ∧ fs s' = fs s
          ∧ calls s' = calls s ++ [GetProducts]
      | Ret [] =>
          r = OkCount 0 ∧ syncState s' = syncState s ∧ fs s' = fs s
          ∧ calls s' = calls s ++ [GetProducts]
      | Ret products =>
          match offers_imports_shop_post (mirakl this)
                  (join [NEWLINE] (Full.productCsvLines products)) with
          | Throw e => r = Failed e ∧ syncState s' = syncState s ∧ fs s' = fs s
          | Ret result =>
              r = Imported result ∧ lastProductSync (syncState s') = Some now
              ∧ flushed s s'
          end
      end.
Proof.
  unfold Full.syncProducts, sameButProductSync. run_M.
  destruct (products_get (shopify this)) as [[|p products]|e].
  - eexists _, _. split; [reflexivity|]. tidy. by repeat split.
  - rewrite bool_decide_eq_false_2 by (cbn; lia).
    destruct (offers_imports_shop_post _ _) as [result|e].
    + finish_save. eexists _, _. split; [reflexivity|]. tidy. by repeat split.
    + eexists _, _. split; [reflexivity|]. tidy. by repeat split.
  - eexists _, _. split; [reflexivity|]. tidy. by repeat split.
Qed.

(** X9.  [syncInventory] of the full program never throws and changes no part of
    the checkpoint but [lastInventorySync].  A catalogue without variants
    ends the routine before any inventory level is asked for; a failed
    request leaves the checkpoint and the file as before; an accepted
    import sets [lastInventorySync] and saves the checkpoint. *)
Theorem Full_syncInventory_outcome now s :
  ∃ s' r,
    Full.syncInventory this now s = (s', Ret r)
    ∧ sameButInventorySync (syncState s) (syncState s')
    ∧ match products_get (shopify this) with
      | Throw e =>
          r = Failed e ∧ syncState s' = syncState s ∧ fs s' = fs s
          ∧ calls s' = calls s ++ [GetProducts]
      | Ret products =>
          let ids := Variant.inventory_item_id ∘ snd <$> variantsInOrder products in
          if decide (ids = []) then
            r = OkCount 0 ∧ syncState s' = syncState s ∧ fs s' = fs s
            ∧ calls s' = calls s ++ [GetProducts]
          else
            match inventory_levels_get (shopify this) ids with
            | Throw e =>
                r = Failed e ∧ syncState s' = syncState s ∧ fs s' = fs s
                ∧ calls s' = calls s ++ [GetProducts; GetInventoryLevels ids]
            | Ret levels =>
                match offers_imports_post (mirakl this)
                        (join [NEWLINE]
                           (Full.inventoryCsvLines (Full.inventoryMap levels) products)) with
                | Throw e => r = Failed e ∧ syncState s' = syncState s ∧ fs s' = fs s
                | Ret result =>
                    r = Imported result ∧ lastInventorySync (syncState s') = Some now
                    ∧ flushed s s'
                end
            end
      end.
Proof.
  unfold Full.syncInventory, sameButInventorySync. run_M.
  destruct (products_get (shopify this)) as [products|e].
  2:{ eexists _, _. split; [reflexivity|]. tidy. by repeat split. }
  pose proof (inventoryItemIds_in_order products) as Hids. unfold mbind in Hids.
  rewrite !Hids. cbv zeta.
  destruct (decide (_ = [])) as [Hnil|Hne].
  - rewrite Hnil. cbn. eexists _, _. split; [reflexivity|]. tidy. by repeat split.
  - rewrite bool_decide_eq_false_2.
    2:{ intros Hlen. apply Hne. by apply nil_length_inv. }
    destruct (inventory_levels_get _ _) as [levels|e].
    + destruct (offers_imports_post _ _) as [result|e].
      * finish_save. eexists _, _. split; [reflexivity|]. tidy. by repeat split.
      * eexists _, _. split; [reflexivity|]. tidy. by repeat split.
    + eexists _, _. split; [reflexivity|]. tidy. by repeat split.
Qed.

(** X10.  [syncInventory] of the simplified program never throws and changes no
    part of the checkpoint but [lastInventorySync].  It stops early only for
    an empty catalogue: products without variants still lead to a request
    for no inventory item and to the upload of the header alone. *)
Theorem Simplified_syncInventory_outcome now s :
  ∃ s' r,
    Simplified.syncInventory this now s = (s', Ret r)
    ∧ sameButInventorySync (syncState s) (syncState s')
    ∧ match products_get (shopify this) with
      | Throw e =>
          r = Failed e ∧ syncState s' = syncState s ∧ fs s' = fs s
          ∧ calls s' = calls s ++ [GetProducts]
      | Ret [] =>
          r = OkCount 0 ∧ syncState s' = syncState s ∧ fs s' = fs s
          ∧ calls s' = calls s ++ [GetProducts]
      | Ret products =>
          let ids := Variant.inventory_item_id ∘ snd <$> variantsInOrder products in
          match inventory_levels_get (shopify this) ids with
          | Throw e =>
              r = Failed e ∧ syncState s' = syncState s ∧ fs s' = fs s
              ∧ calls s' = calls s ++ [GetProducts; GetInventoryLevels ids]
          | Ret levels =>
              let payload :=
                join [NEWLINE]
                  (Simplified.offerCsvLines (Simplified.inventoryMap levels) products) in
              calls s' = calls s ++ [GetProducts; GetInventoryLevels ids; UpdateOffers payload]
              ∧ (variantsInOrder products = [] → payload = Simplified.OFFERS_HEADER)
              ∧ match offers_imports_post (mirakl this) payload with
                | Throw e => r = Failed e ∧ syncState s' = syncState s ∧ fs s' = fs s
                | Ret result =>
                    r = Imported result ∧ lastInventorySync (syncState s') = Some now
                    ∧ flushed s s'
                end
          end
      end.
Proof.
  unfold Simplified.syncInventory, sameButInventorySync. run_M.
  destruct (products_get (shopify this)) as [products|e].
  2:{ eexists _, _. split; [reflexivity|]. tidy. by repeat split. }
  destruct products as [|p0 products'] eqn:Hprod.
  { eexists _, _. split; [reflexivity|]. tidy. by repeat split. }
  rewrite <- Hprod. rewrite bool_decide_eq_false_2 by (rewrite Hprod; cbn; lia).
  pose proof (inventoryItemIds_in_order products) as Hids. unfold mbind in Hids.
  rewrite !Hids. cbv zeta.
  assert (Hhdr : ∀ levels, variantsInOrder products = [] →
            join [NEWLINE] (Simplified.offerCsvLines (Simplified.inventoryMap levels) products)
            = Simplified.OFFERS_HEADER).
  { intros levels Hnil. unfold Simplified.offerCsvLines.
    rewrite (rows_in_order (Simplified.offerLine _)), Hnil. done. }
  destruct (inventory_levels_get _ _) as [levels|e].
  - destruct (offers_imports_post _ _) as [result|e].
    + finish_save. eexists _, _. split; [reflexivity|]. tidy.
      repeat split; first [done | apply Hhdr].
    + eexists _, _. split; [reflexivity|]. tidy.
      repeat split; first [done | apply Hhdr].
  - eexists _, _. split; [reflexivity|]. tidy. by repeat split.
Qed.

(** None of the three routines throws. *)
Lemma syncProducts_returns now s : ∃ s' r, Full.syncProducts this now s = (s', Ret r).
Proof.
  unfold Full.syncProducts. run_M.
  destruct (products_get (shopify this)) as [products|e]; [|by eauto].
  case_bool_decide; [by eauto|].
  destruct (offers_imports_shop_post _ _) as [result|e]; [|by eauto].
  finish_save. by eauto.
Qed.

Lemma Full_syncInventory_returns now s :
  ∃ s' r, Full.syncInventory this now s = (s', Ret r).
Proof.
  unfold Full.syncInventory. run_M.
  destruct (products_get (shopify this)) as [products|e]; [|by eauto].
  case_bool_decide; [by eauto|].
  destruct (inventory_levels_get _ _) as [levels|e]; [|by eauto].
  destruct (offers_imports_post _ _) as [result|e]; [|by eauto].
  finish_save. by eauto.
Qed.

Lemma Simplified_syncInventory_returns now s :
  ∃ s' r, Simplified.syncInventory this now s = (s', Ret r).
Proof.
  unfold Simplified.syncInventory. run_M.
  destruct (products_get (shopify this)) as [products|e]; [|by eauto].
  case_bool_decide; [by eauto|].
  destruct (inventory_levels_get _ _) as [levels|e]; [|by eauto].
  destruct (offers_imports_post _ _) as [result|e]; [|by eauto].
  finish_save. by eauto.
Qed.

End OfferRoutines.

(** ** Tracking sync *)

Ltac run_tracking :=
  cbv beta iota delta
    [rethrowing try_catch request console_log console_error throw lift
     get_syncState set_syncState set_lastTrackingSync
     ShopifyClient.getFulfillments ShopifyClient.getOrdersSince
     MiraklClient.updateTracking
     mbind M_bind mret M_ret].

Section CaptureFacts.
Implicit Types (s literal : jsstring) (excluded : N → bool).

Lemma take_while_Forall (keep : N → bool) s : Forall (λ c, keep c = true) (take_while keep s).
Proof.
  induction s as [|c s IH]; cbn; [constructor|].
  destruct (keep c) eqn:Hc; by constructor.
Qed.

(** What a pattern captures is not empty and lies outside the excluded
    class. *)
Lemma match_capture_class literal excluded s cap :
  match_capture literal excluded s = Some cap →
  cap ≠ [] ∧ Forall (λ c, excluded c = false) cap.
Proof.
  induction s as [|c s IH]; cbn [match_capture]; unfold match_here;
    (destruct (strip_prefix literal _) as [rest|]; [|by auto]);
    (destruct (take_while _ rest) as [|d cap'] eqn:Htw; [by auto|]);
    intros [= <-]; (split; [done|]);
    rewrite <- Htw; (eapply Forall_impl; [apply take_while_Forall|]);
    cbn; intros x Hx; by apply negb_true_iff.
Qed.

Lemma extracted_id_shape (so : ShopifyOrder.t) id :
  Full.extractMiraklOrderId so = Some id → id ≠ [] ∧ no_whitespace id.
Proof.
  rewrite extractMiraklOrderId_captures. unfold noteCapture, tagsCapture, no_whitespace.
  assert (Htags : ∀ t, match_capture (lit "Order-") (λ c, is_space c || (c =? COMMA)) t
                       = Some id → id ≠ [] ∧ Forall (λ c, is_space c = false) id).
  { intros t Ht. apply match_capture_class in Ht as [Hne Hall]. split; [done|].
    eapply Forall_impl; [exact Hall|]. cbn. by intros c [? ?]%orb_false_elim. }
  destruct (ShopifyOrder.note so) as [n|]; cbn [mbind option_bind].
  - destruct (match_capture _ is_space n) as [id'|] eqn:Hn.
    + intros [= <-]. by apply match_capture_class in Hn.
    + destruct (ShopifyOrder.tags so) as [t|]; cbn [mbind option_bind]; [apply Htags|done].
  - destruct (ShopifyOrder.tags so) as [t|]; cbn [mbind option_bind]; [apply Htags|done].
Qed.

(** X11.  The identifier [extractMiraklOrderId] returns is never empty and never
    contains whitespace; when it comes from the tags (the note giving none)
    it contains no comma either. *)
Theorem extractMiraklOrderId_well_formed (so : ShopifyOrder.t) id :
  Full.extractMiraklOrderId so = Some id →
  id ≠ [] ∧ no_whitespace id
  ∧ (noteCapture (ShopifyOrder.note so) = None → COMMA ∉ id).
Proof.
  intros Hx. destruct (extracted_id_shape so id Hx) as [Hne Hws].
  split; [done|]. split; [done|]. intros Hnote Hin.
  rewrite extractMiraklOrderId_captures, Hnote in Hx. unfold tagsCapture in Hx.
  destruct (ShopifyOrder.tags so) as [t|]; cbn [mbind option_bind] in Hx; [|done].
  apply match_capture_class in Hx as [_ Hall].
  rewrite Forall_forall in Hall. apply Hall in Hin.
  apply orb_false_elim in Hin as [_ Hin]. by rewrite N.eqb_refl in Hin.
Qed.

(** X12.  Text added to the note after the identifier, behind whitespace, does
    not disturb the correlation. *)
Theorem noteCapture_ignores_trailing_text (id rest : jsstring) (w : N) :
  id ≠ [] → no_whitespace id → is_space w = true →
  noteCapture (Some (NOTE_PREFIX ++ id ++ w :: rest)) = Some id.
Proof.
  intros Hne Hws Hw. unfold noteCapture. cbn [mbind option_bind].
  apply match_capture_here. unfold match_here, NOTE_PREFIX.
  rewrite strip_prefix_app.
  assert (Htw : take_while (λ c, negb (is_space c)) (id ++ w :: rest) = id).
  { induction Hws as [|c id Hc _ IH]; cbn.
    - by rewrite Hw.
    - rewrite Hc. cbn. destruct id as [|c' id'].
      + cbn. by rewrite Hw.
      + by rewrite IH. }
  rewrite Htw. by destruct id.
Qed.

End CaptureFacts.

Section TrackingLoops.
Context `{!JsonCodec} (this : SyncManager).
Implicit Types (s : Sys) (so : ShopifyOrder.t).

Lemma countUpdateTracking_app cs cs' :
  countUpdateTracking (cs ++ cs') = (countUpdateTracking cs + countUpdateTracking cs')%nat.
Proof. unfold countUpdateTracking. by rewrite List.filter_app, length_app. Qed.

Lemma countUpdateTracking_updates id (ts : list TrackingInfo.t) :
  countUpdateTracking (UpdateTracking id <$> ts) = length ts.
Proof. induction ts as [|t ts IH]; [done|]. cbn. by rewrite <- IH. Qed.

(** The inner loop: the updates it sends are a prefix of those the
    fulfillments call for, all of them when it returns; the counter grows by
    one per update; the checkpoint and the file are not touched. *)
Lemma syncTracking_fulfillments_spec id fulfillments n s s' r :
  Full.syncTracking_fulfillments this id fulfillments n s = (s', r) →
  ∃ sent,
    sent `prefix_of` trackingUpdates fulfillments
    ∧ calls s' = calls s ++ (UpdateTracking id <$> sent)
    ∧ syncState s' = syncState s ∧ fs s' = fs s
    ∧ match r with
      | Ret m => sent = trackingUpdates fulfillments ∧ m = (n + length sent)%nat
      | Throw _ => True
      end.
Proof.
  revert n s. induction fulfillments as [|f rest IH]; intros n s Hrun.
  - injection Hrun as <- <-. exists []. cbn. rewrite app_nil_r. repeat split; [done|lia].
  - cbn [Full.syncTracking_fulfillments] in Hrun. unfold trackingUpdates. cbn [omap list_omap].
    fold (trackingUpdates rest).
    destruct (Fulfillment.tracking_number f) as [[|c num]|].
    + exact (IH _ _ Hrun).
    + revert Hrun. run_tracking.
      destruct (tracking_put _ _ _) as [[]|e]; intros Hrun.
      * destruct (IH _ _ Hrun) as (sent & Hpre & Hcalls & Hst & Hfs & Hr).
        cbn [printed called calls syncState fs] in Hcalls, Hst, Hfs.
        eexists (_ :: sent). split; [by apply prefix_cons|].
        rewrite Hcalls, <- app_assoc. split; [done|]. split; [done|]. split; [done|].
        destruct r as [m|]; [|done]. destruct Hr as [-> ->]. split; [done|cbn; lia].
      * injection Hrun as <- <-. eexists [_]. cbn.
        split; [apply prefix_cons, prefix_nil|]. repeat split; done.
    + exact (IH _ _ Hrun).
Qed.

(** The outer loop: the requests it sends are a prefix of the plan, the
    whole plan when it returns; the counter grows by one per update sent. *)
Lemma syncTracking_loop_spec orders n s s' r :
  Full.syncTracking_loop this orders n s = (s', r) →
  ∃ sent,
    sent `prefix_of` trackingPlan this orders
    ∧ calls s' = calls s ++ sent
    ∧ syncState s' = syncState s ∧ fs s' = fs s
    ∧ match r with
      | Ret m => sent = trackingPlan this orders ∧ m = (n + countUpdateTracking sent)%nat
      | Throw _ => True
      end.
Proof.
  revert n s. induction orders as [|so rest IH]; intros n s Hrun.
  - injection Hrun as <- <-. exists []. cbn. rewrite app_nil_r. repeat split; [done|lia].
  - cbn [Full.syncTracking_loop] in Hrun. unfold trackingPlan. rewrite bind_cons.
    fold (trackingPlan this rest).
    destruct (Full.extractMiraklOrderId so) as [[|c id]|].
    + revert Hrun. run_tracking. intros Hrun. exact (IH _ _ Hrun).
    + revert Hrun. run_tracking.
      destruct (fulfillments_get _ _) as [fulfillments|e].
      * destruct (Full.syncTracking_fulfillments this (c :: id) fulfillments n _)
          as [s1 r1] eqn:Hinner.
        destruct (syncTracking_fulfillments_spec _ _ _ _ _ _ Hinner)
          as (sent1 & Hpre1 & Hcalls1 & Hst1 & Hfs1 & Hr1).
        cbn [printed called calls syncState fs] in Hcalls1, Hst1, Hfs1.
        destruct r1 as [n1|e]; intros Hrun.
        -- destruct Hr1 as [-> ->].
           destruct (IH _ _ Hrun) as (sent & Hpre & Hcalls & Hst & Hfs & Hr).
           eexists (GetFulfillments _ :: (UpdateTracking (c :: id) <$> _) ++ sent).
           split; [cbn; by apply prefix_cons, prefix_app|].
           rewrite Hcalls, Hcalls1, <- !app_assoc. split; [done|].
           split; [congruence|]. split; [congruence|].
           destruct r as [m|]; [|done]. destruct Hr as [-> ->]. split; [done|].
           change (GetFulfillments (ShopifyOrder.id so) :: ?l) with
             ([GetFulfillments (ShopifyOrder.id so)] ++ l).
           rewrite !countUpdateTracking_app, countUpdateTracking_updates. cbn. lia.
        -- injection Hrun as <- <-.
           eexists (GetFulfillments _ :: (UpdateTracking (c :: id) <$> sent1)).
           split.
           { cbn. apply prefix_cons. apply prefix_app_r.
             destruct Hpre1 as [k ->]. rewrite fmap_app. by eexists. }
           rewrite Hcalls1, <- app_assoc. repeat split; done.
      * intros Hrun. injection Hrun as <- <-.
        exists [GetFulfillments (ShopifyOrder.id so)].
        split; [cbn; apply prefix_cons, prefix_nil|]. repeat split; done.
    + revert Hrun. run_tracking. intros Hrun. exact (IH _ _ Hrun).
Qed.

(** Every request of a plan is well formed. *)
Lemma trackingPlan_ok orders : Forall trackingCallOk (trackingPlan this orders).
Proof.
  unfold trackingPlan. induction orders as [|so rest IH]; [constructor|].
  rewrite bind_cons. apply Forall_app. split; [|exact IH].
  destruct (Full.extractMiraklOrderId so) as [[|c id]|] eqn:Hx; [constructor| |constructor].
  apply extracted_id_shape in Hx as (Hne & Hws).
  constructor; [done|].
  destruct (fulfillments_get _ _) as [fulfillments|]; [|constructor].
  apply Forall_fmap, Forall_forall. intros t Ht. cbn.
  unfold trackingUpdates in Ht. apply list_elem_of_omap in Ht as (f & _ & Hf).
  destruct (Fulfillment.tracking_number f) as [[|c' num]|]; try done.
  injection Hf as <-. cbn. repeat split; try done. unfold or_str.
  destruct (Fulfillment.tracking_company f) as [[|? ?]|]; first [done|by vm_compute].
Qed.

End TrackingLoops.

Section TrackingRoutine.
Context `{!JsonCodec} (this : SyncManager).
Implicit Types (s : Sys) (so : ShopifyOrder.t).

Lemma Forall_prefix {A} (P : A → Prop) (l k : list A) :
  l `prefix_of` k → Forall P k → Forall P l.
Proof. intros [t ->] Hall. by apply Forall_app in Hall as [? _]. Qed.

(** X13.  [syncTracking] never throws and changes no part of the checkpoint but
    [lastTrackingSync].  Its requests, after the one for the orders, are a
    prefix of the plan for the fulfilled marketplace orders, each of them
    well formed.  When it succeeds it has sent the whole plan and the count
    it returns is the number of tracking updates sent; [lastTrackingSync] is
    set, and the checkpoint saved, only if there was a fulfilled marketplace
    order.  When it fails the checkpoint and the file are as before. *)
Theorem syncTracking_outcome now s :
  ∃ s' r,
    Full.syncTracking this now s = (s', Ret r)
    ∧ sameButTrackingSync (syncState s) (syncState s')
    ∧ match orders_get (shopify this) with
      | Throw e =>
          r = Failed e ∧ syncState s' = syncState s ∧ fs s' = fs s
          ∧ calls s' = calls s ++ [GetOrdersSince]
      | Ret orders =>
          let selected := List.filter Full.isFulfilledMiraklOrder orders in
          ∃ sent,
            sent `prefix_of` trackingPlan this selected
            ∧ calls s' = calls s ++ GetOrdersSince :: sent
            ∧ Forall trackingCallOk sent
            ∧ ((r = OkUpdated (countUpdateTracking sent)
                ∧ sent = trackingPlan this selected
                ∧ (selected = [] → syncState s' = syncState s ∧ fs s' = fs s)
                ∧ (selected ≠ [] →
                   lastTrackingSync (syncState s') = Some now ∧ flushed s s'))
               ∨ (∃ e, r = Failed e ∧ syncState s' = syncState s ∧ fs s' = fs s))
      end.
Proof.
  unfold Full.syncTracking, sameButTrackingSync. run_tracking.
  destruct (orders_get (shopify this)) as [orders|e].
  2:{ eexists _, _. split; [reflexivity|]. cbn. by repeat split. }
  cbv zeta. set (selected := List.filter Full.isFulfilledMiraklOrder orders).
  destruct (decide (selected = [])) as [Hnil|Hne].
  - rewrite Hnil. cbn [length]. rewrite bool_decide_eq_true_2 by done.
    eexists _, _. split; [reflexivity|].
    cbn [fst snd printed called syncState fs calls].
    split; [done|]. exists []. split; [done|]. split; [done|]. split; [constructor|].
    left. by repeat split.
  - rewrite bool_decide_eq_false_2.
    2:{ intros Hlen. apply Hne. by apply nil_length_inv. }
    match goal with |- context [Full.syncTracking_loop this selected 0 ?s0] =>
      destruct (Full.syncTracking_loop this selected 0 s0) as [s1 r1] eqn:Hloop end.
    destruct (syncTracking_loop_spec this _ _ _ _ _ Hloop)
      as (sent & Hpre & Hcalls & Hst & Hfs & Hr).
    cbn [printed called calls syncState fs] in Hcalls, Hst, Hfs.
    assert (Hok : Forall trackingCallOk sent).
    { eapply Forall_prefix; [exact Hpre|apply trackingPlan_ok]. }
    destruct r1 as [m|e].
    + destruct Hr as [Hsent ->].
      match goal with |- context [saveSyncState ?x] =>
        destruct (saveSyncState_flushed x) as (s3 & -> & Hst3 & Hcalls3 & Hfl) end.
      unfold flushed in *.
      cbn [fst snd printed called withSyncState syncState fs calls] in *.
      eexists _, _. split; [reflexivity|].
      cbn [fst snd printed called withSyncState syncState fs calls].
      rewrite Hst3 in Hfl |- *. rewrite Hcalls3, Hcalls, Hst, <- app_assoc.
      rewrite Hfs, Hst in Hfl.
      cbn [lastProductSync lastInventorySync lastOrderSync lastTrackingSync processedOrders].
      split; [done|]. exists sent. split; [done|]. split; [done|]. split; [done|].
      left. split; [done|]. split; [done|]. split; [intros Hs; by destruct Hne|intros _; by split].
    + eexists _, _. split; [reflexivity|].
      cbn [fst snd printed called withSyncState syncState fs calls].
      rewrite Hst, Hcalls, Hfs, <- app_assoc.
      split; [done|]. exists sent. split; [done|]. split; [done|]. split; [done|].
      right. exists e. by repeat split.
Qed.

(** X14.  An order created by [syncOrders], kept by the storefront with its tags,
    is selected by the filter of [syncTracking] exactly when its fulfillment
    status is [fulfilled]. *)
Theorem created_order_selected_when_fulfilled (o : MiraklOrder.t) so :
  ShopifyOrder.tags so = Some (Draft.tags (shopifyOrderData o)) →
  Full.isFulfilledMiraklOrder so
  = bool_decide (ShopifyOrder.fulfillment_status so = Some (lit "fulfilled")).
Proof.
  intros Htags. unfold Full.isFulfilledMiraklOrder. rewrite Htags.
  cbn [shopifyOrderData Draft.tags default from_option id].
  change TAGS_PREFIX with (lit "Mirakl" ++ lit ",Order-").
  rewrite <- app_assoc.
  assert (Hinc : ∀ t, includes (lit "Mirakl") (lit "Mirakl" ++ t) = true).
  { intros t. assert (Hp := strip_prefix_app (lit "Mirakl") t).
    destruct (lit "Mirakl" ++ t); cbn [includes]; by rewrite Hp. }
  rewrite Hinc.
  assert (Htr : ∀ t, truthy_str (Some (lit "Mirakl" ++ t)) = true) by done.
  by rewrite Htr.
Qed.

Lemma syncTracking_returns now s : ∃ s' r, Full.syncTracking this now s = (s', Ret r).
Proof.
  unfold Full.syncTracking. run_tracking.
  destruct (orders_get (shopify this)) as [orders|e]; [|by eauto].
  case_bool_decide; [by eauto|].
  destruct (Full.syncTracking_loop this _ 0 _) as [s1 [m|e]]; [|by eauto].
  match goal with |- context [saveSyncState ?x] =>
    destruct (saveSyncState_flushed x) as (s3 & -> & _) end.
  by eauto.
Qed.

End TrackingRoutine.

(** ** The first pass *)

Section FirstPass.
Context `{!JsonCodec} (this : SyncManager).
Implicit Types (s : Sys).

Lemma syncOrders_returns now s : ∃ s' r, syncOrders this now s = (s', Ret r).
Proof.
  destruct (syncOrders this now s) as [s' r] eqn:Hrun.
  pose proof (syncOrders_spec this now s s' r Hrun) as Hspec.
  destruct (ordersFetched this s).
  - destruct Hspec as (? & _ & [(-> & _)|(? & ? & -> & _)]); by eauto.
  - destruct Hspec as (-> & _). by eauto.
Qed.

Ltac run_first_pass :=
  cbv beta iota delta
    [Full_initialSync Simplified_initialSync console_rule console_error_rule
     try_catch console_log console_error mbind M_bind mret M_ret].

(** X15.  The first pass of the full program runs the four routines one after the
    other, each in the state the previous one left, whatever they returned:
    no failure of a remote call reaches the [catch] of [main], and the pass
    always ends with the lines that announce its completion. *)
Theorem Full_initialSync_runs_every_routine t1 t2 t3 t4 s :
  ∃ s1 r1 s2 r2 s3 r3 s4 r4 s5,
    Full.syncProducts this t1 (initialSyncBanner s) = (s1, Ret r1)
    ∧ Full.syncInventory this t2 s1 = (s2, Ret r2)
    ∧ syncOrders this t3 s2 = (s3, Ret r3)
    ∧ Full.syncTracking this t4 s3 = (s4, Ret r4)
    ∧ Full_initialSync this t1 t2 t3 t4 s = (s5, Ret tt)
    ∧ syncState s5 = syncState s4 ∧ fs s5 = fs s4 ∧ calls s5 = calls s4
    ∧ console s5 = console s4 ++ Full_completeLines.
Proof.
  destruct (syncProducts_returns this t1 (initialSyncBanner s)) as (s1 & r1 & H1).
  destruct (Full_syncInventory_returns this t2 s1) as (s2 & r2 & H2).
  destruct (syncOrders_returns t3 s2) as (s3 & r3 & H3).
  destruct (syncTracking_returns this t4 s3) as (s4 & r4 & H4).
  exists s1, r1, s2, r2, s3, r3, s4, r4. eexists.
  split; [done|]. split; [done|]. split; [done|]. split; [done|].
  run_first_pass. fold (initialSyncBanner s). rewrite H1, H2, H3, H4.
  split; [reflexivity|]. cbn [printed syncState fs calls console].
  rewrite <- !app_assoc. by repeat split.
Qed.

(** X16.  The first pass of the simplified program runs [syncInventory] and then
    [syncOrders], whatever the first returned, and always ends with the
    lines that announce its completion. *)
Theorem Simplified_initialSync_runs_every_routine t1 t2 s :
  ∃ s1 r1 s2 r2 s3,
    Simplified.syncInventory this t1 (initialSyncBanner s) = (s1, Ret r1)
    ∧ syncOrders this t2 s1 = (s2, Ret r2)
    ∧ Simplified_initialSync this t1 t2 s = (s3, Ret tt)
    ∧ syncState s3 = syncState s2 ∧ fs s3 = fs s2 ∧ calls s3 = calls s2
    ∧ console s3 = console s2 ++ Simplified_completeLines.
Proof.
  destruct (Simplified_syncInventory_returns this t1 (initialSyncBanner s))
    as (s1 & r1 & H1).
  destruct (syncOrders_returns t2 s1) as (s2 & r2 & H2).
  exists s1, r1, s2, r2. eexists.
  split; [done|]. split; [done|].
  run_first_pass. fold (initialSyncBanner s). rewrite H1, H2.
  split; [reflexivity|]. cbn [printed syncState fs calls console].
  rewrite <- !app_assoc. by repeat split.
Qed.

End FirstPass.

(** ** The configuration *)

Section Configuration.
Implicit Types (env : EnvVar → option jsstring).

Lemma includes_prefix (sub t : jsstring) : includes sub (sub ++ t) = true.
Proof.
  assert (Hp := strip_prefix_app sub t).
  destruct (sub ++ t); cbn [includes]; by rewrite Hp.
Qed.

Lemma or_str_falsy (a : option jsstring) (b : jsstring) :
  truthy_str a = false → or_str a b = b.
Proof. by destruct a as [[|? ?]|]. Qed.

(** X17.  The start-up test fails exactly when the store name or the API key
    contains [YOUR] or the API address is the placeholder; comparing the
    store name with its placeholder adds nothing.  A store name, API address
    or API key that is not set, or set to the empty string, makes the test
    fail.  The test looks at no other variable: the access token and the
    shop identifier may keep their placeholders. *)
Theorem configurationError_characterized env :
  (configurationError (config env) = true ↔
     includes (lit "YOUR") (Config.storeName (Config.shopify (config env))) = true
     ∨ Config.apiUrl (Config.mirakl (config env)) = lit "https://YOUR_INSTANCE.mirakl.net"
     ∨ includes (lit "YOUR") (Config.apiKey (Config.mirakl (config env))) = true)
  ∧ (truthy_str (env SHOPIFY_STORE_NAME) = false
     ∨ truthy_str (env MIRAKL_API_URL) = false
     ∨ truthy_str (env MIRAKL_API_KEY) = false →
     configurationError (config env) = true)
  ∧ (∀ env',
       env' SHOPIFY_STORE_NAME = env SHOPIFY_STORE_NAME →
       env' MIRAKL_API_URL = env MIRAKL_API_URL →
       env' MIRAKL_API_KEY = env MIRAKL_API_KEY →
       configurationError (config env') = configurationError (config env)).
Proof.
  assert (Hiff : configurationError (config env) = true ↔
     includes (lit "YOUR") (Config.storeName (Config.shopify (config env))) = true
     ∨ Config.apiUrl (Config.mirakl (config env)) = lit "https://YOUR_INSTANCE.mirakl.net"
     ∨ includes (lit "YOUR") (Config.apiKey (Config.mirakl (config env))) = true).
  { unfold configurationError.
    rewrite !orb_true_iff, !bool_decide_eq_true. split.
    - intros [[[Hname|?]|?]|?]; auto. left. rewrite Hname.
      apply (includes_prefix (lit "YOUR") (lit "_STORE_NAME")).
    - intros [?|[?|?]]; auto. }
  split; [exact Hiff|]. split.
  - intros Hunset. apply Hiff. cbn [config Config.shopify Config.mirakl Config.storeName
                                     Config.apiUrl Config.apiKey].
    destruct Hunset as [Hu|[Hu|Hu]]; rewrite (or_str_falsy _ _ Hu).
    + left. apply (includes_prefix (lit "YOUR") (lit "_STORE_NAME")).
    + right. by left.
    + right. right. apply (includes_prefix (lit "YOUR") (lit "_MIRAKL_API_KEY")).
  - intros env' H1 H2 H3. unfold configurationError.
    cbn [config Config.shopify Config.mirakl Config.storeName Config.apiUrl Config.apiKey].
    by rewrite H1, H2, H3.
Qed.

End Configuration.

(** ** Rows and quantities *)

Section Rows.
Implicit Types (levels : list InventoryLevel.t) (v : Variant.t).


(** X19.  An inventory item for which no level came back is sent with quantity
    zero by both programs. *)
Theorem inventory_missing_level_is_zero levels v :
  Variant.inventory_item_id v ∉ (InventoryLevel.inventory_item_id <$> levels) →
  Full.inventoryQuantity (Full.inventoryMap levels) v = 0%Z
  ∧ Simplified.offerQuantity (Simplified.inventoryMap levels) v = 0%Z.
Proof.
  intros Hnot.
  assert (Hnone : lastLevel levels (Variant.inventory_item_id v) = None).
  { unfold lastLevel.
    destruct (List.filter _ (reverse levels)) as [|l ?] eqn:Hf; [done|].
    exfalso. apply Hnot.
    assert (Hin : In l (List.filter
                          (λ l, bool_decide (InventoryLevel.inventory_item_id l
                                             = Variant.inventory_item_id v))
                          (reverse levels))) by (rewrite Hf; by left).
    apply List.filter_In in Hin as [Hin Hb]. apply bool_decide_eq_true in Hb.
    rewrite <- Hb. apply list_elem_of_fmap_2.
    apply list_elem_of_In in Hin. by apply elem_of_reverse. }
  split.
  - rewrite Full_quantity_unclamped. unfold levelOf. by rewrite Hnone.
  - destruct (Simplified_quantity_clamped levels v) as [-> _].
    unfold levelOf. by rewrite Hnone.
Qed.

(** X20.  In the full program the row of [syncInventory] names a variant's offer
    like the row of [syncProducts] exactly when the variant has a sku: for a
    variant without one, [syncProducts] writes [SHOPIFY-] and the
    identifier, [syncInventory] the bare identifier. *)
Theorem Full_sku_agreement v :
  (Full.offerSku v = or_str (Variant.sku v) (str_of_N (Variant.id v))
   ↔ truthy_str (Variant.sku v) = true)
  ∧ (∀ m, Full.inventoryLine m v =
          or_str (Variant.sku v) (str_of_N (Variant.id v))
          ++ [SEMICOLON] ++ str_of_Z (Full.inventoryQuantity m v))
  ∧ (truthy_str (Variant.sku v) = false →
     Full.offerSku v = lit "SHOPIFY-" ++ str_of_N (Variant.id v)
     ∧ or_str (Variant.sku v) (str_of_N (Variant.id v)) = str_of_N (Variant.id v)).
Proof.
  split; [|split; [done|]].
  - unfold Full.offerSku, or_str, truthy_str.
    destruct (Variant.sku v) as [[|c sku]|]; [|done|]; (split; [|done]);
      intros Heq; apply (f_equal length) in Heq;
      rewrite length_app in Heq;
      change (length (lit "SHOPIFY-")) with 8%nat in Heq; lia.
  - unfold Full.offerSku, or_str, truthy_str.
    by destruct (Variant.sku v) as [[|c sku]|].
Qed.

(** X21.  The sku of a row is never empty, in both programs; the price of a row of
    the simplified program is never empty and its quantity never negative. *)
Theorem offer_fields_never_empty v (m : gmap N Z) :
  Full.offerSku v ≠ [] ∧ Simplified.offerSku v ≠ []
  ∧ Simplified.offerPrice v ≠ []
  ∧ (0 ≤ Simplified.offerQuantity m v)%Z.
Proof.
  unfold Full.offerSku, Simplified.offerSku, Simplified.offerPrice,
    Simplified.offerQuantity, or_str, or_opt, truthy_str.
  split; [|split; [|split; [|lia]]].
  - by destruct (Variant.sku v) as [[|? ?]|].
  - by destruct (Variant.sku v) as [[|? ?]|], (Variant.barcode v) as [[|? ?]|].
  - by destruct (Variant.price v) as [[|? ?]|].
Qed.

(** X22.  Stripping tags a second time changes nothing, and a text without [<]
    is not changed at all. *)
Theorem strip_tags_idempotent (s : jsstring) :
  strip_tags (strip_tags s) = strip_tags s
  ∧ (LT ∉ s → strip_tags s = s).
Proof.
  split; [apply strip_tags_id, strip_tags_no_tag|].
  intros Hlt. apply strip_tags_id.
  induction s as [|c s IH]; [done|]. cbn [has_tag].
  apply not_elem_of_cons in Hlt as [Hc Hs]. rewrite IH by done.
  destruct (N.eqb_spec c LT); [congruence|done].
Qed.

End Rows.

Section Cursor.
Context `{!JsonCodec}.

(** X23.  The cursor is used: after a successful pass over a batch that is not
    empty, at an instant that is not the empty string, the next run asks the
    marketplace for the orders since that instant, before anything else.
    A process without checkpoint asks without a start date. *)
Theorem syncOrders_next_start_date this this' now now' s s' n o orders :
  ordersFetched this s = Ret (o :: orders) →
  syncOrders this now s = (s', Ret (OkCreated n)) →
  now ≠ [] →
  (∃ rest, calls (syncOrders this' now' s').1 = calls s' ++ GetOrders (Some now) :: rest)
  ∧ (∀ s0, lastOrderSync (syncState s0) = None →
       ∃ rest, calls (syncOrders this' now' s0).1 = calls s0 ++ GetOrders None :: rest).
Proof.
  intros Hf Hrun Hnow.
  assert (Hstart : startDate s' = Some now).
  { pose proof (syncOrders_spec this now s s' _ Hrun) as Hspec. rewrite Hf in Hspec.
    destruct Hspec as (created & _ & [(_ & _ & Hst & _)|(? & ? & [=] & _)]).
    unfold startDate. rewrite Hst, decide_False by done. cbn. by destruct now. }
  split.
  - destruct (syncOrders this' now' s') as [s2 r2] eqn:Hrun2. cbn [fst].
    destruct (syncOrders_created_prefix this' now' s' s2 r2 Hrun2) as (sent & _ & -> & _).
    rewrite Hstart. by eexists.
  - intros s0 Hnone.
    destruct (syncOrders this' now' s0) as [s2 r2] eqn:Hrun2. cbn [fst].
    destruct (syncOrders_created_prefix this' now' s0 s2 r2 Hrun2) as (sent & _ & -> & _).
    unfold startDate. rewrite Hnone. by eexists.
Qed.

End Cursor.

(** ** The further properties at sample inputs *)

Lemma save_then_load_witness :
  let codec := Sample2.codecFor Full.zeroState in
  writable (fs Sample.sys0) = true ∧ readable (fs Sample.sys0) = true
  ∧ @JSON_parse codec (@JSON_stringify codec (syncState Sample.sys0))
    = Ret (syncState Sample.sys0)
  ∧ @Full.loadSyncState codec (@saveSyncState codec Sample.sys0).1
    = ((@saveSyncState codec Sample.sys0).1, Ret (syncState Sample.sys0)).
Proof.
  intros codec.
  assert (Hw : writable (fs Sample.sys0) = true) by reflexivity.
  assert (Hr : readable (fs Sample.sys0) = true) by reflexivity.
  assert (Hrt : @JSON_parse codec (@JSON_stringify codec (syncState Sample.sys0))
                = Ret (syncState Sample.sys0)) by reflexivity.
  split; [exact Hw|]. split; [exact Hr|]. split; [exact Hrt|].
  exact (proj1 (@save_then_load codec Sample.sys0 _ Hw Hr Hrt eq_refl)).
Defined.

Lemma save_refused_then_load_witness :
  let s := {| syncState := syncState Sample.sys0;
              fs := {| file := Some (lit "{}"); readable := true; writable := false |};
              console := []; calls := [] |} in
  writable (fs s) = false
  ∧ fs (@saveSyncState Sample.codec s).1 = fs s
  ∧ (@Full.loadSyncState Sample.codec (@saveSyncState Sample.codec s).1).2
    = (@Full.loadSyncState Sample.codec s).2.
Proof.
  intros s.
  assert (Hw : writable (fs s) = false) by reflexivity.
  split; [exact Hw|].
  exact (@save_refused_then_load Sample.codec s Hw).
Defined.

Lemma syncOrders_at_most_once_witness :
  let this := Sample.manager None Sample.batch in
  let s1 := (@syncOrders Sample.codec this Sample.now1 Sample.sys0).1 in
  lit "A1" ∈ processedOrders (syncState s1)
  ∧ createdFor (lit "A1") (calls (@syncOrders Sample.codec this Sample.now2 s1).1)
    = createdFor (lit "A1") (calls s1).
Proof.
  intros this s1.
  assert (Hin : lit "A1" ∈ processedOrders (syncState s1)).
  { vm_compute. apply list_elem_of_here. }
  split; [exact Hin|].
  exact (proj2 (@syncOrders_at_most_once Sample.codec this Sample.now2 s1 (lit "A1")) Hin).
Defined.

Lemma syncOrders_retry_safe_witness :
  let this := Sample.manager (Some (lit "B2")) Sample.batch in
  let this' := Sample.manager None Sample.batch in
  let run := @syncOrders Sample.codec this Sample.now1 Sample.sys0 in
  let d := shopifyOrderData (Sample.order (lit "A1") (Some (lit "a@example.org"))) in
  let new := [GetOrders None; CreateOrder d;
              CreateOrder (shopifyOrderData (Sample.order (lit "B2") None))] in
  calls run.1 = calls Sample.sys0 ++ new
  ∧ CreateOrder d ∈ new
  ∧ orders_post (shopify this) d = Ret Sample.createdOrder
  ∧ run.2 = Ret (Failed (lit "Request failed with status code 422"))
  ∧ (∃ id, Draft.note d = NOTE_PREFIX ++ id
           ∧ id ∈ processedOrders (syncState run.1)
           ∧ createdFor id (calls (@syncOrders Sample.codec this' Sample.now2 run.1).1)
             = createdFor id (calls run.1)).
Proof.
  intros this this' run d new.
  assert (Hrun : run = (run.1, run.2)) by (by destruct run).
  assert (Hcalls : calls run.1 = calls Sample.sys0 ++ new) by (vm_compute; reflexivity).
  assert (Hin : CreateOrder d ∈ new) by (right; left).
  assert (Hok : orders_post (shopify this) d = Ret Sample.createdOrder)
    by (vm_compute; reflexivity).
  split; [exact Hcalls|]. split; [exact Hin|]. split; [exact Hok|].
  split; [vm_compute; reflexivity|].
  exact (@syncOrders_retry_safe Sample.codec this this' Sample.now1 Sample.now2
           Sample.sys0 run.1 run.2 new d _ Hrun Hcalls Hin Hok).
Defined.

Lemma syncOrders_cursor_witness :
  let this := Sample.manager None Sample.batch in
  let run := @syncOrders Sample.codec this Sample.now1 Sample.sys0 in
  lastOrderSync (syncState run.1) = Some Sample.now1
  ∧ lastProductSync (syncState run.1) = None
  ∧ lastOrderSync
      (syncState (@syncOrders Sample.codec (Sample.manager None []) Sample.now1 Sample.sys0).1)
    = None.
Proof.
  intros this run.
  assert (Hrun : run = (run.1, run.2)) by (by destruct run).
  destruct (@syncOrders_cursor Sample.codec this Sample.now1 Sample.sys0 run.1 run.2 Hrun)
    as (Hp & _ & _ & Ho & _).
  split; [exact Ho|]. split; [exact Hp|].
  set (run0 := @syncOrders Sample.codec (Sample.manager None []) Sample.now1 Sample.sys0).
  assert (Hrun0 : run0 = (run0.1, run0.2)) by (by destruct run0).
  destruct (@syncOrders_cursor Sample.codec _ Sample.now1 Sample.sys0 run0.1 run0.2 Hrun0)
    as (_ & _ & _ & Ho0 & _).
  exact Ho0.
Defined.

Lemma syncOrders_checkpoint_persisted_witness :
  let this := Sample.manager None Sample.batch in
  let st1 := syncState (@syncOrders Sample.codec this Sample.now1 Sample.sys0).1 in
  let codec := Sample2.codecFor st1 in
  let s' := (@syncOrders codec this Sample.now1 Sample.sys0).1 in
  ordersFetched this Sample.sys0 = Ret Sample.batch
  ∧ @syncOrders codec this Sample.now1 Sample.sys0 = (s', Ret (OkCreated 2))
  ∧ @JSON_parse codec (@JSON_stringify codec (syncState s')) = Ret (syncState s')
  ∧ (∃ st, @Full.loadSyncState codec s' = (s', Ret st)
           ∧ lastOrderSync st = Some Sample.now1
           ∧ (∀ o', o' ∈ Sample.batch → MiraklOrder.order_id o' ∈ processedOrders st)
           ∧ processedOrders (syncState Sample.sys0) `prefix_of` processedOrders st).
Proof.
  intros this st1 codec s'.
  assert (Hf : ordersFetched this Sample.sys0 = Ret Sample.batch) by reflexivity.
  assert (Hrun : @syncOrders codec this Sample.now1 Sample.sys0 = (s', Ret (OkCreated 2)))
    by (vm_compute; reflexivity).
  assert (Hrt : @JSON_parse codec (@JSON_stringify codec (syncState s')) = Ret (syncState s'))
    by (vm_compute; reflexivity).
  split; [exact Hf|]. split; [exact Hrun|]. split; [exact Hrt|].
  exact (@syncOrders_checkpoint_persisted codec this Sample.now1 Sample.sys0 s' 2 _ _ s'
           Hf Hrun eq_refl eq_refl Hrt eq_refl).
Defined.

Lemma syncOrders_next_start_date_witness :
  let this := Sample.manager None Sample.batch in
  let s' := (@syncOrders Sample.codec this Sample.now1 Sample.sys0).1 in
  Sample.now1 ≠ []
  ∧ (∃ rest, calls (@syncOrders Sample.codec this Sample.now2 s').1
             = calls s' ++ GetOrders (Some Sample.now1) :: rest).
Proof.
  intros this s'.
  assert (Hf : ordersFetched this Sample.sys0 = Ret Sample.batch) by reflexivity.
  assert (Hrun : @syncOrders Sample.codec this Sample.now1 Sample.sys0
                 = (s', Ret (OkCreated 2))) by (vm_compute; reflexivity).
  assert (Hnow : Sample.now1 ≠ []) by (vm_compute; discriminate).
  split; [exact Hnow|].
  exact (proj1 (@syncOrders_next_start_date Sample.codec this this Sample.now1 Sample.now2
                  Sample.sys0 s' 2 _ _ Hf Hrun Hnow)).
Defined.

Lemma extractMiraklOrderId_well_formed_witness :
  let so := Sample2.fulfilledOrder 3 None (Some (lit "Mirakl,Order-C3,gift")) in
  Full.extractMiraklOrderId so = Some (lit "C3")
  ∧ lit "C3" ≠ [] ∧ no_whitespace (lit "C3")
  ∧ (noteCapture (ShopifyOrder.note so) = None → COMMA ∉ lit "C3").
Proof.
  intros so.
  assert (Hx : Full.extractMiraklOrderId so = Some (lit "C3")) by (vm_compute; reflexivity).
  split; [exact Hx|].
  exact (extractMiraklOrderId_well_formed so (lit "C3") Hx).
Defined.

Lemma noteCapture_ignores_trailing_text_witness :
  lit "ABC123" ≠ [] ∧ no_whitespace (lit "ABC123") ∧ is_space 10 = true
  ∧ noteCapture (Some (NOTE_PREFIX ++ lit "ABC123" ++ 10 :: lit "leave at the door"))
    = Some (lit "ABC123").
Proof.
  assert (Hne : lit "ABC123" ≠ []) by (vm_compute; discriminate).
  assert (Hws : no_whitespace (lit "ABC123")).
  { unfold no_whitespace. repeat (constructor; [reflexivity|]). constructor. }
  assert (Hw : is_space 10 = true) by reflexivity.
  split; [exact Hne|]. split; [exact Hws|]. split; [exact Hw|].
  exact (noteCapture_ignores_trailing_text (lit "ABC123") (lit "leave at the door") 10
           Hne Hws Hw).
Defined.

Lemma created_order_selected_when_fulfilled_witness :
  let o := Sample.order (lit "ABC123") None in
  let so := Sample.storedOrder (shopifyOrderData o) in
  ShopifyOrder.tags so = Some (Draft.tags (shopifyOrderData o))
  ∧ Full.isFulfilledMiraklOrder so = true.
Proof.
  intros o so.
  assert (Ht : ShopifyOrder.tags so = Some (Draft.tags (shopifyOrderData o))) by reflexivity.
  split; [exact Ht|].
  etrans; [exact (created_order_selected_when_fulfilled o so Ht)|]. reflexivity.
Defined.


Lemma inventory_missing_level_is_zero_witness :
  let levels := [Sample.level 2 (Some 4%Z)] in
  (Variant.inventory_item_id Sample.variantA1
     ∉ (InventoryLevel.inventory_item_id <$> levels))
  ∧ Full.inventoryQuantity (Full.inventoryMap levels) Sample.variantA1 = 0%Z
  ∧ Simplified.offerQuantity (Simplified.inventoryMap levels) Sample.variantA1 = 0%Z.
Proof.
  intros levels.
  assert (Hnot : Variant.inventory_item_id Sample.variantA1
                 ∉ (InventoryLevel.inventory_item_id <$> levels)).
  { intros [Heq|Hin]%elem_of_cons; [discriminate Heq|by apply elem_of_nil in Hin]. }
  split; [exact Hnot|].
  exact (inventory_missing_level_is_zero levels Sample.variantA1 Hnot).
Defined.

Lemma configurationError_characterized_witness :
  configurationError (config Sample2.env) = false
  ∧ Config.accessToken (Config.shopify (config Sample2.env))
    = lit "YOUR_SHOPIFY_ACCESS_TOKEN"
  ∧ truthy_str (None : option jsstring) = false
  ∧ configurationError (config (λ _, None)) = true.
Proof.
  split; [reflexivity|]. split; [reflexivity|].
  assert (Hu : truthy_str (None : option jsstring) = false) by reflexivity.
  split; [exact Hu|].
  exact (proj1 (proj2 (configurationError_characterized (λ _, None))) (or_introl Hu)).
Defined.

Lemma Full_sku_agreement_witness :
  truthy_str (Variant.sku Sample2.variantNoSku) = false
  ∧ Full.offerSku Sample2.variantNoSku = lit "SHOPIFY-987"
  ∧ or_str (Variant.sku Sample2.variantNoSku) (str_of_N (Variant.id Sample2.variantNoSku))
    = lit "987".
Proof.
  assert (Hs : truthy_str (Variant.sku Sample2.variantNoSku) = false) by reflexivity.
  split; [exact Hs|].
  exact (proj2 (proj2 (Full_sku_agreement Sample2.variantNoSku)) Hs).
Defined.

Lemma strip_tags_idempotent_witness :
  (LT ∉ lit "plain text > here")
  ∧ strip_tags (lit "plain text > here") = lit "plain text > here".
Proof.
  assert (Hlt : LT ∉ lit "plain text > here").
  { intros Hin. apply (bool_decide_pack _) in Hin. vm_compute in Hin. exact Hin. }
  split; [exact Hlt|].
  exact (proj2 (strip_tags_idempotent (lit "plain text > here")) Hlt).
Defined.

(** The requests of a tracking pass over three orders: one with two
    shipments of which one has a tracking number, one without marketplace
    tag, one found through its tags. *)
Example syncTracking_sample :
  calls (@Full.syncTracking Sample.codec Sample2.trackingManager Sample.now1 Sample.sys0).1
  = [ GetOrdersSince;
      GetFulfillments 1;
      UpdateTracking (lit "A1")
        {| TrackingInfo.carrier_code := lit "OTHER";
           TrackingInfo.tracking_number := lit "TRK1";
           TrackingInfo.tracking_url := None |};
      GetFulfillments 3;
      UpdateTracking (lit "C3")
        {| TrackingInfo.carrier_code := lit "UPS";
           TrackingInfo.tracking_number := lit "TRK2";
           TrackingInfo.tracking_url := None |} ]
  ∧ (@Full.syncTracking Sample.codec Sample2.trackingManager Sample.now1 Sample.sys0).2
    = Ret (OkUpdated 2).
Proof. vm_compute. split; reflexivity. Qed.

(** The first pass with both platforms down: every routine is tried. *)
Example Full_initialSync_sample :
  calls (@Full_initialSync Sample.codec Sample2.downManager
           Sample.now1 Sample.now1 Sample.now2 Sample.now2 Sample.sys0).1
  = [GetProducts; GetProducts; GetOrders None; GetOrdersSince]
  ∧ (@Full_initialSync Sample.codec Sample2.downManager
       Sample.now1 Sample.now1 Sample.now2 Sample.now2 Sample.sys0).2 = Ret tt.
Proof. vm_compute. split; reflexivity. Qed.
